(** * The JSON-RPC transport of the FModSilo client (src/extension.ts)

    A shallow embedding of the stream decoder [onMessageReceived], the
    dispatcher [interpretMessage], the three encoders [sendRequest],
    [sendNotification], [sendResponse] and the pending-request ledger
    [pendingRequests], together with the properties of the transport. *)

From Stdlib Require Import ZArith QArith Ascii String Decimal DecimalString DecimalN Lia.
From stdpp Require Import gmap strings.

Local Open Scope Z_scope.
Local Set Warnings "-register-all".

(** ** The JavaScript primitives the transport relies on *)

Module JS.

(** Strings are sequences of code units; this development uses Rocq's
    [string], that is code units below 256. *)

Definition LF : ascii := "010"%char.
Definition CR : ascii := "013"%char.
Definition CRLF : string := String CR (String LF "").

(** [s.substring(indexStart, indexEnd)]: both indices are clamped to
    [0 .. s.length] and swapped when the first exceeds the second. *)
Definition substring (s : string) (indexStart indexEnd : Z) : string :=
  let len := Z.of_nat (String.length s) in
  let a := Z.min (Z.max indexStart 0) len in
  let b := Z.min (Z.max indexEnd 0) len in
  let from := Z.min a b in
  let to := Z.max a b in
  String.substring (Z.to_nat from) (Z.to_nat (to - from)) s.

(** Numbers.  Only the values that a string conversion can produce are
    needed: a finite value (kept exact, as a rational), an infinity, or NaN. *)
Inductive number :=
  | Finite (q : Q)
  | Infinite (negative : bool)
  | NaN.

(** [count === x] for an integer counter [count]. *)
Definition strict_equals_count (count : nat) (x : number) : bool :=
  match x with
  | Finite q => Qeq_bool (inject_Z (Z.of_nat count)) q
  | Infinite _ | NaN => false
  end.

(** White space and line terminators that the string-to-number conversion
    strips (the ones below 256). *)
Definition is_whitespace (c : ascii) : bool :=
  let n := N_of_ascii c in
  ((n =? 9) || (n =? 10) || (n =? 11) || (n =? 12) || (n =? 13)
   || (n =? 32) || (n =? 160))%N.

Fixpoint trim_start (s : string) : string :=
  match s with
  | String c r => if is_whitespace c then trim_start r else s
  | EmptyString => EmptyString
  end.

Fixpoint trim_end (s : string) : string :=
  match s with
  | String c r =>
      match trim_end r with
      | EmptyString => if is_whitespace c then EmptyString else String c EmptyString
      | r' => String c r'
      end
  | EmptyString => EmptyString
  end.

Definition trim (s : string) : string := trim_end (trim_start s).

(** One decimal digit, as a constructor of [Decimal.uint]. *)
Definition decimal_digit (c : ascii) : option (uint -> uint) :=
  match N_of_ascii c with
  | 48%N => Some D0 | 49%N => Some D1 | 50%N => Some D2 | 51%N => Some D3
  | 52%N => Some D4 | 53%N => Some D5 | 54%N => Some D6 | 55%N => Some D7
  | 56%N => Some D8 | 57%N => Some D9
  | _ => None
  end.

(** The longest prefix of decimal digits of [s], and what follows it. *)
Fixpoint read_digits (s : string) : uint * string :=
  match s with
  | String c r =>
      match decimal_digit c with
      | Some d => let (ds, rest) := read_digits r in (d ds, rest)
      | None => (Nil, s)
      end
  | EmptyString => (Nil, EmptyString)
  end.

(** [m * 10 ^ e] as an exact rational. *)
Definition scale10 (m e : Z) : Q :=
  if 0 <=? e then inject_Z (m * 10 ^ e)
  else Qmake m (Z.to_pos (10 ^ (- e))).

(** The exponent part of a decimal literal: empty, or [e]/[E], an optional
    sign and at least one digit, up to the end of the string. *)
Definition read_exponent (s : string) : option Z :=
  match s with
  | EmptyString => Some 0
  | String c r =>
      if (Ascii.eqb c "e" || Ascii.eqb c "E")%bool then
        let '(neg, r') :=
          match r with
          | String sg r'' =>
              if Ascii.eqb sg "+" then (false, r'')
              else if Ascii.eqb sg "-" then (true, r'')
              else (false, r)
          | EmptyString => (false, r)
          end in
        match read_digits r' with
        | (Nil, _) => None
        | (ds, EmptyString) => Some (if neg then - Z.of_uint ds else Z.of_uint ds)
        | (_, String _ _) => None
        end
      else None
  end.

(** An unsigned decimal literal: [Infinity], digits with an optional
    fraction and exponent, or a fraction alone with an optional exponent. *)
Definition decimal_literal (negative : bool) (s : string) : number :=
  if String.eqb s "Infinity" then Infinite negative
  else
    let (int_part, r1) := read_digits s in
    let (frac_part, r2) :=
      match r1 with
      | String c r => if Ascii.eqb c "." then read_digits r else (Nil, r1)
      | EmptyString => (Nil, r1)
      end in
    match int_part, frac_part with
    | Nil, Nil => NaN
    | _, _ =>
        match read_exponent r2 with
        | Some e =>
            let m := Z.of_uint (Decimal.app int_part frac_part) in
            let q := scale10 m (e - Z.of_nat (nb_digits frac_part)) in
            Finite (if negative then Qopp q else q)
        | None => NaN
        end
    end.

(** Digits of a binary, octal or hexadecimal literal. *)
Definition radix_digit (radix : Z) (c : ascii) : option Z :=
  let n := Z.of_N (N_of_ascii c) in
  let d :=
    if (48 <=? n) && (n <=? 57) then Some (n - 48)
    else if (97 <=? n) && (n <=? 102) then Some (n - 87)
    else if (65 <=? n) && (n <=? 70) then Some (n - 55)
    else None in
  match d with
  | Some v => if v <? radix then Some v else None
  | None => None
  end.

Fixpoint read_radix (radix : Z) (s : string) (acc : Z) : option Z :=
  match s with
  | String c r =>
      match radix_digit radix c with
      | Some v => read_radix radix r (acc * radix + v)
      | None => None
      end
  | EmptyString => Some acc
  end.

Definition radix_literal (radix : Z) (digits : string) : number :=
  match digits with
  | EmptyString => NaN
  | _ => match read_radix radix digits 0 with
         | Some v => Finite (inject_Z v)
         | None => NaN
         end
  end.

(** The unary [+] applied to a string (the StringToNumber conversion):
    surrounding white space is dropped, the empty string is 0, then comes a
    binary, octal or hexadecimal integer literal or a signed decimal literal;
    anything else is NaN.  Finite values are kept exact where the program
    holds a double: the two agree on every value that is a double (all
    integers up to 2^53 are) and differ on a literal that is not, which the
    program rounds to the nearest double or, beyond the largest one, to an
    infinity.  The strings that give NaN are the program's. *)
Definition to_number (s : string) : number :=
  match trim s with
  | EmptyString => Finite 0
  | String c r as t =>
      if Ascii.eqb c "+" then decimal_literal false r
      else if Ascii.eqb c "-" then decimal_literal true r
      else
        match r with
        | String p digits =>
            if negb (Ascii.eqb c "0") then decimal_literal false t
            else if (Ascii.eqb p "x" || Ascii.eqb p "X")%bool then radix_literal 16 digits
            else if (Ascii.eqb p "o" || Ascii.eqb p "O")%bool then radix_literal 8 digits
            else if (Ascii.eqb p "b" || Ascii.eqb p "B")%bool then radix_literal 2 digits
            else decimal_literal false t
        | EmptyString => decimal_literal false t
        end
  end.

(** A string length converted to a string by [+]: its decimal digits. *)
Definition length_to_string (n : nat) : string :=
  NilEmpty.string_of_uint (N.to_uint (N.of_nat n)).

(** Values, as [JSON.parse] produces them and as the encoders build them.
    Numbers inside values are integers (ids, error codes); an object is its
    list of properties in enumeration order. *)
Inductive value :=
  | VUndefined
  | VNull
  | VBool (b : bool)
  | VNumber (z : Z)
  | VString (s : string)
  | VArray (items : list value)
  | VObject (props : list (string * value)).

Fixpoint join (sep : string) (l : list string) : string :=
  match l with
  | [] => ""
  | [x] => x
  | x :: r => x +:+ sep +:+ join sep r
  end.

(** The string a value turns into when it is concatenated to a string
    (for a number, its decimal digits: the exponent form that the program
    uses from 10^21 on is not modelled). *)
Fixpoint ToString (v : value) : string :=
  match v with
  | VUndefined => "undefined"
  | VNull => "null"
  | VBool b => if b then "true" else "false"
  | VNumber z => NilZero.string_of_int (Z.to_int z)
  | VString s => s
  | VArray items =>
      join "," (List.map (fun x => match x with
                                   | VUndefined | VNull => ""
                                   | _ => ToString x
                                   end) items)
  | VObject _ => "[object Object]"
  end.

Fixpoint assoc (name : string) (props : list (string * value)) : option value :=
  match props with
  | [] => None
  | (k, v) :: r => if String.eqb k name then Some v else assoc name r
  end.

(** [name in v], for a property name that no prototype supplies and that is
    neither [length] nor an array index (the dispatcher asks for [method]
    and [id]): [None] is the TypeError raised on a primitive. *)
Definition has_property (name : string) (v : value) : option bool :=
  match v with
  | VObject props => Some (match assoc name props with Some _ => true | None => false end)
  | VArray _ => Some false
  | VUndefined | VNull | VBool _ | VNumber _ | VString _ => None
  end.

(** [v.name] on an object or an array, for the same property names. *)
Definition get (v : value) (name : string) : value :=
  match v with
  | VObject props => match assoc name props with Some x => x | None => VUndefined end
  | _ => VUndefined
  end.

End JS.

Import JS.

(** ** The transport *)

(** [lsp.ErrorCodes.METHOD_NOT_FOUND] *)
Definition METHOD_NOT_FOUND : Z := -32601.

(** [ClientResponse]: what a request listener returns. *)
Record ClientResponse := { result : value; error : value }.

(** What the module does to the outside world, in order: writes to the
    server's standard input, error pop-ups, console output.  Two more events
    record what happens inside: [Invoked], a listener of one of the three
    tables being called, and [Rejected], an exception raised inside an
    [async] function, which ends that call with a rejected promise instead
    of reaching its caller. *)
Inductive table := RequestTable | NotificationTable | ResponseTable.

Inductive event :=
  | Write (data : string)
  | ShowErrorMessage (message : string)
  | ConsoleLog (v : value)
  | Invoked (t : table) (method : string) (args : list value)
  | Rejected.

(** A listener is caller-supplied code.  While it runs it may use the
    transport through [sendRequest] (the identifier is the one [randomUUID]
    draws for that call) and [sendNotification]; then it returns a value or
    raises ([returned = None]). *)
Inductive send :=
  | SendRequest (uuid method : string) (params : value)
  | SendNotification (method : string) (params : value).

Record run (A : Type) := { sends : list send; returned : option A }.
Arguments sends {A} _.
Arguments returned {A} _.

(** The module's variables, in two groups: the decoder's
    ([msgStage], [received], [awaitLength], [readLength]) and the ledger
    [pendingRequests] with the trace of events. *)
Inductive stage :=
  | HEADER       (* msgStage === 0 *)
  | HEADER_END   (* msgStage === 1 *)
  | BODY.        (* msgStage === 2 *)

Record decoder := {
  msgStage : stage;
  received : string;
  awaitLength : number;
  readLength : nat
}.

Record session := {
  pendingRequests : gmap string value;
  io : list event
}.

(** [const contentLength = "Content-Length: ".length] *)
Definition contentLength : Z := Z.of_nat (String.length "Content-Length: ").

Definition initial_decoder : decoder :=
  {| msgStage := HEADER; received := ""; awaitLength := Finite 0; readLength := 0 |}.

Definition initial_session : session :=
  {| pendingRequests := ∅; io := [] |}.

Definition emit (e : event) (s : session) : session :=
  {| pendingRequests := pendingRequests s; io := io s ++ [e] |}.

Section Transport.

(** [JSON.parse] ([None]: a SyntaxError) and [JSON.stringify]. *)
Variable JSON_parse : string -> option value.
Variable JSON_stringify : value -> string.

(** The three listener tables. *)
Variable notificationListeners : gmap string (value -> run unit).
Variable requestListeners : gmap string (value -> run ClientResponse).
Variable responseListeners : gmap string (value -> value -> run bool).

(** ["Content-Length: " + msgStr.length + "\r\n\r\n" + msgStr] *)
Definition frame (msgStr : string) : string :=
  "Content-Length: " +:+ length_to_string (String.length msgStr)
    +:+ CRLF +:+ CRLF +:+ msgStr.

Definition RequestMessage (id method : string) (params : value) : value :=
  VObject [("id", VString id); ("jsonrpc", VString "2.0");
           ("method", VString method); ("params", params)].

Definition NotificationMessage (method : string) (params : value) : value :=
  VObject [("jsonrpc", VString "2.0"); ("method", VString method);
           ("params", params)].

Definition ResponseMessage (id result error : value) : value :=
  VObject [("error", error); ("id", id); ("jsonrpc", VString "2.0");
           ("result", result)].

Definition ResponseError (code : Z) (message : string) : value :=
  VObject [("code", VNumber code); ("message", VString message)].

(** The three encoders end in [fserver.stdin?.write(fullStr)].  They are
    modelled here with the server spawned, as it is from [activate] on and
    so whenever a message arrives; [sendRequest_on] below also covers the
    client before that.

    [sendRequest]; [uuid] is the result of [randomUUID()]. *)
Definition sendRequest (uuid method : string) (params : value) (s : session) : session :=
  let msg := RequestMessage uuid method params in
  let s := {| pendingRequests := <[uuid := msg]> (pendingRequests s); io := io s |} in
  let msgStr := JSON_stringify msg in
  emit (Write (frame msgStr)) s.

Definition sendNotification (method : string) (params : value) (s : session) : session :=
  let msg := NotificationMessage method params in
  let msgStr := JSON_stringify msg in
  emit (Write (frame msgStr)) s.

Definition sendResponse (request result error : value) (s : session) : session :=
  let msg := ResponseMessage (get request "id") result error in
  let msgStr := JSON_stringify msg in
  emit (Write (frame msgStr)) s.

(** What a running listener does to the session. *)
Definition perform (x : send) (s : session) : session :=
  match x with
  | SendRequest uuid method params => sendRequest uuid method params s
  | SendNotification method params => sendNotification method params s
  end.

Definition perform_all (l : list send) (s : session) : session :=
  fold_left (fun s x => perform x s) l s.

(** [table.get(key)]: the tables and the ledger only have string keys. *)
Definition map_get {A} (m : gmap string A) (key : value) : option A :=
  match key with
  | VString k => m !! k
  | _ => None
  end.

Definition map_delete {A} (key : value) (m : gmap string A) : gmap string A :=
  match key with
  | VString k => delete k m
  | _ => m
  end.

Definition interpretMessage (obj : value) (s : session) : session :=
  match has_property "method" obj with
  | None => emit Rejected s
  | Some true =>
      match has_property "id" obj with
      | None => emit Rejected s
      | Some true =>
          (* It's a request *)
          let request := obj in
          match map_get requestListeners (get request "method") with
          | Some fn =>
              let r := fn (get request "params") in
              let s := emit (Invoked RequestTable (ToString (get request "method"))
                               [get request "params"]) s in
              let s := perform_all (sends r) s in
              match returned r with
              | Some obj => sendResponse request (result obj) (error obj) s
              | None => emit Rejected s
              end
          | None =>
              sendResponse request VUndefined
                (ResponseError METHOD_NOT_FOUND
                   ("Method " +:+ ToString (get request "method") +:+ " not found."))
                s
          end
      | Some false =>
          (* It's a notification *)
          let notification := obj in
          match map_get notificationListeners (get notification "method") with
          | Some fn =>
              let r := fn (get notification "params") in
              let s := emit (Invoked NotificationTable (ToString (get notification "method"))
                               [get notification "params"]) s in
              let s := perform_all (sends r) s in
              match returned r with
              | Some _ => s
              | None => emit Rejected s
              end
          | None => s
          end
      end
  | Some false =>
      (* It's a response *)
      let response := obj in
      match get response "id" with
      | VNull =>
          emit (ShowErrorMessage "Missing id field form response.")
            (emit (ConsoleLog obj) s)
      | id =>
          match map_get (pendingRequests s) id with
          | Some request =>
              match map_get responseListeners (get request "method") with
              | Some fn =>
                  let r := fn request response in
                  let s := emit (Invoked ResponseTable (ToString (get request "method"))
                                   [request; response]) s in
                  let s := perform_all (sends r) s in
                  match returned r with
                  | Some shouldRemove =>
                      if shouldRemove
                      then {| pendingRequests := map_delete id (pendingRequests s);
                              io := io s |}
                      else s
                  | None => emit Rejected s
                  end
              | None => s
              end
          | None => emit (ShowErrorMessage "Pending request not found.") s
          end
      end
  end.

(** [onMessageReceived] either returns or lets the SyntaxError of
    [JSON.parse] through; both leave the module's variables behind. *)
Inductive outcome :=
  | Returned (d : decoder) (s : session)
  | Thrown (d : decoder) (s : session).

(** The [mainwhile] loop and its three scanning loops look at every
    character of [data] once, from left to right. *)
Fixpoint onMessageReceived (data : string) (d : decoder) (s : session) : outcome :=
  match data with
  | EmptyString => Returned d s
  | String c rest =>
      match msgStage d with
      | HEADER =>
          if Ascii.eqb c LF then
            onMessageReceived rest
              {| msgStage := HEADER_END;
                 received := "";
                 awaitLength :=
                   to_number (substring (received d) contentLength
                                (Z.of_nat (String.length (received d)) - 1));
                 readLength := readLength d |} s
          else
            onMessageReceived rest
              {| msgStage := HEADER;
                 received := received d +:+ String c "";
                 awaitLength := awaitLength d;
                 readLength := readLength d |} s
      | HEADER_END =>
          if Ascii.eqb c LF then
            if Nat.eqb (String.length (received d)) 1 then
              onMessageReceived rest
                {| msgStage := BODY;
                   received := "";
                   awaitLength := awaitLength d;
                   readLength := readLength d |} s
            else
              onMessageReceived rest
                {| msgStage := HEADER_END;
                   received := "";
                   awaitLength := awaitLength d;
                   readLength := readLength d |} s
          else
            onMessageReceived rest
              {| msgStage := HEADER_END;
                 received := received d +:+ String c "";
                 awaitLength := awaitLength d;
                 readLength := readLength d |} s
      | BODY =>
          let readLength' := S (readLength d) in
          let received' := received d +:+ String c "" in
          if strict_equals_count readLength' (awaitLength d) then
            (* Parse and react *)
            match JSON_parse received' with
            | Some obj =>
                onMessageReceived rest
                  {| msgStage := HEADER;
                     received := "";
                     awaitLength := awaitLength d;
                     readLength := 0 |}
                  (interpretMessage obj s)
            | None =>
                Thrown {| msgStage := HEADER;
                          received := received';
                          awaitLength := awaitLength d;
                          readLength := 0 |} s
            end
          else
            onMessageReceived rest
              {| msgStage := BODY;
                 received := received';
                 awaitLength := awaitLength d;
                 readLength := readLength' |} s
      end
  end.

(** The chunks that the server's standard output delivers, one ['data']
    event and so one call of [onMessageReceived] each.  A call that lets an
    exception through does not stop the stream: the next chunk is handed to
    the next call, on the variables the failed call left behind.  The
    outcome carries the variables after the last chunk, as [Thrown] when
    some call raised. *)
Fixpoint feed (chunks : list string) (d : decoder) (s : session) : outcome :=
  match chunks with
  | [] => Returned d s
  | data :: more =>
      match onMessageReceived data d s with
      | Returned d' s' => feed more d' s'
      | Thrown d' s' =>
          match feed more d' s' with
          | Returned d'' s'' | Thrown d'' s'' => Thrown d'' s''
          end
      end
  end.

End Transport.

(** ** Auxiliary definitions *)

(** Strings of decimal digits. *)
Fixpoint all_digits (s : string) : bool :=
  match s with
  | String c r => match decimal_digit c with Some _ => all_digits r | None => false end
  | EmptyString => true
  end.

(** Header lines do not contain the terminator. *)
Fixpoint no_LF (s : string) : bool :=
  match s with
  | String c r => negb (Ascii.eqb c LF) && no_LF r
  | EmptyString => true
  end.

(** The decoder is between two frames. *)
Definition idle (d : decoder) : Prop :=
  msgStage d = HEADER /\ received d = "" /\ readLength d = 0%nat.

(** The decoder's variables after a frame whose body has [n] characters. *)
Definition after_frame (n : nat) : decoder :=
  {| msgStage := HEADER; received := "";
     awaitLength := Finite (inject_Z (Z.of_nat n)); readLength := 0 |}.

(** A stream cut into chunks. *)
Definition flatten (chunks : list string) : string :=
  fold_right String.append "" chunks.

(** Outside the BODY stage the body counter is 0. *)
Definition counter_reset (d : decoder) : Prop :=
  msgStage d <> BODY -> readLength d = 0%nat.

(** The events that record a listener being called. *)
Definition is_Invoked (e : event) : bool :=
  match e with Invoked _ _ _ => true | _ => false end.

(** Every pending call is filed under the id of the request it stores. *)
Definition ledger_consistent (s : session) : Prop :=
  forall k msg, pendingRequests s !! k = Some msg -> get msg "id" = VString k.

(** The sessions that calls of [sendRequest], [sendNotification],
    [sendResponse] and [interpretMessage] and incoming chunks lead to,
    starting from the empty ledger. *)
Inductive reachable
    (JSON_parse : string -> option value) (JSON_stringify : value -> string)
    (notificationListeners : gmap string (value -> run unit))
    (requestListeners : gmap string (value -> run ClientResponse))
    (responseListeners : gmap string (value -> value -> run bool))
    : session -> Prop :=
  | reachable_initial :
      reachable JSON_parse JSON_stringify notificationListeners
        requestListeners responseListeners initial_session
  | reachable_sendRequest s uuid method params :
      reachable JSON_parse JSON_stringify notificationListeners
        requestListeners responseListeners s ->
      reachable JSON_parse JSON_stringify notificationListeners
        requestListeners responseListeners
        (sendRequest JSON_stringify uuid method params s)
  | reachable_sendNotification s method params :
      reachable JSON_parse JSON_stringify notificationListeners
        requestListeners responseListeners s ->
      reachable JSON_parse JSON_stringify notificationListeners
        requestListeners responseListeners
        (sendNotification JSON_stringify method params s)
  | reachable_sendResponse s request result error :
      reachable JSON_parse JSON_stringify notificationListeners
        requestListeners responseListeners s ->
      reachable JSON_parse JSON_stringify notificationListeners
        requestListeners responseListeners
        (sendResponse JSON_stringify request result error s)
  | reachable_interpretMessage s obj :
      reachable JSON_parse JSON_stringify notificationListeners
        requestListeners responseListeners s ->
      reachable JSON_parse JSON_stringify notificationListeners
        requestListeners responseListeners
        (interpretMessage JSON_stringify notificationListeners requestListeners
           responseListeners obj s)
  | reachable_onMessageReceived_returned s data d d' s' :
      reachable JSON_parse JSON_stringify notificationListeners
        requestListeners responseListeners s ->
      onMessageReceived JSON_parse JSON_stringify notificationListeners
        requestListeners responseListeners data d s = Returned d' s' ->
      reachable JSON_parse JSON_stringify notificationListeners
        requestListeners responseListeners s'
  | reachable_onMessageReceived_thrown s data d d' s' :
      reachable JSON_parse JSON_stringify notificationListeners
        requestListeners responseListeners s ->
      onMessageReceived JSON_parse JSON_stringify notificationListeners
        requestListeners responseListeners data d s = Thrown d' s' ->
      reachable JSON_parse JSON_stringify notificationListeners
        requestListeners responseListeners s'.

(** ** The client's own listeners, and material for examples *)

Module Client.

(** Truthiness, as [if (result)] tests it. *)
Definition truthy (v : value) : bool :=
  match v with
  | VUndefined | VNull | VBool false | VNumber 0 | VString EmptyString => false
  | _ => true
  end.

(** [onInitializeResponse], as far as the transport is concerned: on a
    truthy result it reads [result.capabilities.workspace] (a TypeError when
    [capabilities] is undefined or null), sends the [initialized]
    notification and returns true. *)
Definition onInitializeResponse (request response : value) : run bool :=
  let result := get response "result" in
  if truthy result then
    match get result "capabilities" with
    | VUndefined | VNull => {| sends := []; returned := None |}
    | _ => {| sends := [SendNotification "initialized" (VObject [])];
              returned := Some true |}
    end
  else {| sends := []; returned := Some true |}.

(** [onShutdownResponse] *)
Definition onShutdownResponse (request response : value) : run bool :=
  {| sends := [SendNotification "exit" (VObject [])]; returned := Some true |}.

(** [onLogTraceNotification]: reads [params.message], a TypeError when
    [params] is undefined or null, and writes to the trace channel. *)
Definition onLogTraceNotification (params : value) : run unit :=
  match params with
  | VUndefined | VNull => {| sends := []; returned := None |}
  | _ => {| sends := []; returned := Some tt |}
  end.

(** The tables as [activate] fills them: two response listeners and no
    request listener. *)
Definition responseListeners : gmap string (value -> value -> run bool) :=
  <["shutdown" := onShutdownResponse]>
    (<["initialize" := onInitializeResponse]> ∅).

Definition requestListeners : gmap string (value -> run ClientResponse) := ∅.

(** [onPublishDiagnosticsNotification], as far as the transport is
    concerned: it calls [params.diagnostics.forEach] and reads the
    properties of every diagnostic, a TypeError when [params] is undefined or
    null, when [params.diagnostics] is not an array and when one of its
    items is undefined or null; the list it builds goes to the editor, whose
    calls are taken to return. *)
Definition onPublishDiagnosticsNotification (params : value) : run unit :=
  match params with
  | VUndefined | VNull => {| sends := []; returned := None |}
  | _ =>
      match get params "diagnostics" with
      | VArray items =>
          if existsb (fun diagnostic =>
                        match diagnostic with
                        | VUndefined | VNull => true
                        | _ => false
                        end) items
          then {| sends := []; returned := None |}
          else {| sends := []; returned := Some tt |}
      | _ => {| sends := []; returned := None |}
      end
  end.

(** The notification table as [activate] fills it. *)
Definition notificationListeners : gmap string (value -> run unit) :=
  <["$/logTrace" := onLogTraceNotification]>
    (<["textDocument/publishDiagnostics" := onPublishDiagnosticsNotification]> ∅).

(** A request listener that raises. *)
Definition failing_listener (params : value) : run ClientResponse :=
  {| sends := []; returned := None |}.

Definition example_requestListeners : gmap string (value -> run ClientResponse) :=
  <["workspace/configuration" := failing_listener]> ∅.

Definition QUOTE : ascii := "034"%char.

Definition quote (s : string) : string := String QUOTE (s +:+ String QUOTE "").

(** A serializer in the manner of [JSON.stringify], for values whose
    strings need no escaping: properties in order, those that are undefined
    left out, undefined array items as null. *)
Fixpoint stringify (v : value) : string :=
  match v with
  | VUndefined => ""
  | VNull => "null"
  | VBool b => if b then "true" else "false"
  | VNumber z => NilZero.string_of_int (Z.to_int z)
  | VString s => quote s
  | VArray items =>
      "[" +:+ join "," (List.map (fun x => match x with
                                          | VUndefined => "null"
                                          | _ => stringify x
                                          end) items) +:+ "]"
  | VObject props =>
      "{" +:+ join ","
        ((fix members (l : list (string * value)) : list string :=
            match l with
            | [] => []
            | (k, VUndefined) :: r => members r
            | (k, x) :: r => (quote k +:+ ":" +:+ stringify x) :: members r
            end) props) +:+ "}"
  end.

(** A parser that knows the texts of the values in [known]. *)
Definition parse_known (known : list value) (text : string) : option value :=
  List.find (fun v => String.eqb (stringify v) text) known.

(** Messages from the server used in the examples. *)
Definition initialize_response : value :=
  VObject [("id", VString "abc"); ("result", VObject [])].

Definition configuration_request : value :=
  VObject [("id", VNumber 7); ("jsonrpc", VString "2.0");
           ("method", VString "workspace/configuration")].

Definition logTrace_notification : value :=
  VObject [("jsonrpc", VString "2.0"); ("method", VString "$/logTrace")].

Definition response_without_id : value :=
  VObject [("jsonrpc", VString "2.0"); ("result", VObject [])].

Definition response_with_null_id : value :=
  VObject [("id", VNull); ("jsonrpc", VString "2.0"); ("result", VObject [])].

Definition response_with_unknown_id : value :=
  VObject [("id", VString "nobody"); ("jsonrpc", VString "2.0");
           ("result", VObject [])].

Definition initialize_result : value :=
  VObject [("id", VString "abc");
           ("result", VObject [("capabilities", VObject [])])].

(** Messages of the client. *)
Definition initialize_request : value :=
  RequestMessage "abc" "initialize" (VObject []).

Definition exit_notification : value := NotificationMessage "exit" (VObject []).

Definition known : list value :=
  [initialize_response; initialize_result; configuration_request;
   logTrace_notification; response_without_id; response_with_null_id;
   response_with_unknown_id; initialize_request; exit_notification;
   VObject []].

Definition JSON_parse : string -> option value := parse_known known.

(** A text cut into chunks of the given sizes, and what is left. *)
Fixpoint chunks_of (sizes : list nat) (text : string) : list string :=
  match sizes with
  | [] => [text]
  | n :: r =>
      String.substring 0 n text
        :: chunks_of r (String.substring n (String.length text - n) text)
  end.

(** A frame whose lines end in a line feed alone. *)
Definition lf_frame (msgStr : string) : string :=
  "Content-Length: " +:+ length_to_string (String.length msgStr)
    +:+ String LF (String LF msgStr).

(** A frame whose length is not a number. *)
Definition unparsable_frame (msgStr : string) : string :=
  "Content-Length: abc" +:+ CRLF +:+ CRLF +:+ msgStr.

End Client.

(** ** Activation and the rest of the client *)

(** The parameters of the [initialize] request, as [activate] assembles
    them from the process id and the workspace folders of the editor (their
    names and URIs; [None] when the editor has no folder list). *)
Definition initializeParams (pid : Z)
    (workspaceFolders : option (list (string * string))) : value :=
  VObject
    ([("processId", VNumber pid);
      ("clientInfo", VObject [("name", VString "FModSilo-VSCode");
                              ("version", VString "0.2")]);
      ("workspaceFolders",
       VArray match workspaceFolders with
              | Some folders =>
                  List.map (fun element =>
                              VObject [("name", VString (fst element));
                                       ("uri", VString (snd element))]) folders
              | None => []
              end)]
     ++ match workspaceFolders with
        | Some _ => []
        | None => [("rootUri", VNull)]
        end
     ++ [("trace", VString "verbose");
         ("capabilities",
          VObject [("workspace", VObject [("workspaceFolders", VBool true)]);
                   ("textDocument",
                    VObject [("publishDiagnostics",
                              VObject [("relatedInformation", VBool false)])])])]).

(** [activate], as far as the transport is concerned, with the server
    process spawned when a path is configured: without a path it only shows
    an error; otherwise it registers the listeners of [Client] and sends the
    [initialize] request. *)
Definition activate (JSON_stringify : value -> string) (path : option string)
    (pid : Z) (workspaceFolders : option (list (string * string)))
    (uuid : string) (s : session) : session :=
  match path with
  | None =>
      emit (ShowErrorMessage
              "FModSilo: Server executable path is not set. Set the setting value and reload the window.")
        s
  | Some _ =>
      sendRequest JSON_stringify uuid "initialize"
        (initializeParams pid workspaceFolders) s
  end.

(** [deactivate], with the server spawned. *)
Definition deactivate (JSON_stringify : value -> string) (uuid : string)
    (s : session) : session :=
  sendRequest JSON_stringify uuid "shutdown" VUndefined s.

(** ** More auxiliary definitions *)

(** The character [c] occurs in [s]. *)
Fixpoint occurs (c : ascii) (s : string) : bool :=
  match s with
  | String x r => Ascii.eqb x c || occurs c r
  | EmptyString => false
  end.

Definition COLON : ascii := ":"%char.

(** A stream of frames. *)
Definition frames (bodies : list string) : string :=
  flatten (List.map frame bodies).

(** Header lines that the decoder skips in the HEADER_END stage: each ends
    in a line feed and is not one character long before it. *)
Fixpoint skipped_lines (lines : list string) : bool :=
  match lines with
  | [] => true
  | l :: r => no_LF l && negb (Nat.eqb (String.length l) 1) && skipped_lines r
  end.

Definition unlines (lines : list string) : string :=
  flatten (List.map (fun l => l +:+ String LF "") lines).

(** A written event is a frame around the serialization of some message. *)
Definition well_framed (JSON_stringify : value -> string) (e : event) : Prop :=
  match e with
  | Write data => exists msg, data = frame (JSON_stringify msg)
  | _ => True
  end.

(** The frames that the sends of a listener write, in order. *)
Definition writes_of (JSON_stringify : value -> string) (l : list send) : list event :=
  List.map (fun x =>
              match x with
              | SendRequest uuid method params =>
                  Write (frame (JSON_stringify (RequestMessage uuid method params)))
              | SendNotification method params =>
                  Write (frame (JSON_stringify (NotificationMessage method params)))
              end) l.

(** Every frame on the wire is a frame around some serialization. *)
Definition all_framed (JSON_stringify : value -> string) (s : session) : Prop :=
  Forall (well_framed JSON_stringify) (io s).

(** [fserver.stdin?.write(fullStr)], the last statement of the three
    encoders.  [fserver] is undefined until [activate] has spawned the
    server; reading [stdin] of it then raises, which ends the [async] encoder
    with a rejected promise. *)
Definition stdin_write (spawned : bool) (fullStr : string) (s : session) : session :=
  if spawned then emit (Write fullStr) s else emit Rejected s.

(** [sendRequest], before and after the server is spawned: the request is
    filed, then the write is attempted. *)
Definition sendRequest_on (spawned : bool) (JSON_stringify : value -> string)
    (uuid method : string) (params : value) (s : session) : session :=
  let msg := RequestMessage uuid method params in
  let s := {| pendingRequests := <[uuid := msg]> (pendingRequests s); io := io s |} in
  let msgStr := JSON_stringify msg in
  stdin_write spawned (frame msgStr) s.

(** The client as a whole: whether [fserver] has been spawned, and the
    session. *)
Record extension := {
  fserver : bool;
  transport : session
}.

Definition initial_extension : extension :=
  {| fserver := false; transport := initial_session |}.

(** [activate]: with a path it spawns the server and goes on as above. *)
Definition activate_extension (JSON_stringify : value -> string)
    (path : option string) (pid : Z)
    (workspaceFolders : option (list (string * string)))
    (uuid : string) (x : extension) : extension :=
  {| fserver := match path with Some _ => true | None => fserver x end;
     transport := activate JSON_stringify path pid workspaceFolders uuid (transport x) |}.

(** [deactivate], whether or not a server was spawned. *)
Definition deactivate_extension (JSON_stringify : value -> string)
    (uuid : string) (x : extension) : extension :=
  {| fserver := fserver x;
     transport :=
       sendRequest_on (fserver x) JSON_stringify uuid "shutdown" VUndefined
         (transport x) |}.

(** What the client can come to: the editor activates and deactivates it;
    once the server is spawned its output arrives in chunks, and the
    callback that [onInitializeResponse] registers sends notifications. *)
Inductive extension_reachable
    (JSON_parse : string -> option value) (JSON_stringify : value -> string)
    (notificationListeners : gmap string (value -> run unit))
    (requestListeners : gmap string (value -> run ClientResponse))
    (responseListeners : gmap string (value -> value -> run bool))
    : extension -> Prop :=
  | extension_initial :
      extension_reachable JSON_parse JSON_stringify notificationListeners
        requestListeners responseListeners initial_extension
  | extension_activate x path pid workspaceFolders uuid :
      extension_reachable JSON_parse JSON_stringify notificationListeners
        requestListeners responseListeners x ->
      extension_reachable JSON_parse JSON_stringify notificationListeners
        requestListeners responseListeners
        (activate_extension JSON_stringify path pid workspaceFolders uuid x)
  | extension_deactivate x uuid :
      extension_reachable JSON_parse JSON_stringify notificationListeners
        requestListeners responseListeners x ->
      extension_reachable JSON_parse JSON_stringify notificationListeners
        requestListeners responseListeners
        (deactivate_extension JSON_stringify uuid x)
  | extension_data x data d :
      extension_reachable JSON_parse JSON_stringify notificationListeners
        requestListeners responseListeners x ->
      fserver x = true ->
      extension_reachable JSON_parse JSON_stringify notificationListeners
        requestListeners responseListeners
        {| fserver := true;
           transport :=
             match onMessageReceived JSON_parse JSON_stringify
                     notificationListeners requestListeners responseListeners
                     data d (transport x) with
             | Returned _ s' | Thrown _ s' => s'
             end |}
  | extension_notification x method params :
      extension_reachable JSON_parse JSON_stringify notificationListeners
        requestListeners responseListeners x ->
      fserver x = true ->
      extension_reachable JSON_parse JSON_stringify notificationListeners
        requestListeners responseListeners
        {| fserver := true;
           transport := sendNotification JSON_stringify method params (transport x) |}.

(** Every pending call has been written to the server, or is a [shutdown]
    request whose write was rejected. *)
Definition all_accounted (JSON_stringify : value -> string) (s : session) : Prop :=
  forall k msg,
    pendingRequests s !! k = Some msg ->
    In (Write (frame (JSON_stringify msg))) (io s) \/
    (msg = RequestMessage k "shutdown" VUndefined /\ In Rejected (io s)).

(** Undefined or null: a property read on such a value raises. *)
Definition nullish (v : value) : bool :=
  match v with
  | VUndefined | VNull => true
  | _ => false
  end.

(** Material for the examples of this part. *)
Module Scenario.

Definition shutdown_error_response : value :=
  VObject [("error", VObject [("code", VNumber (-32603));
                              ("message", VString "boom")]);
           ("id", VString "def")].

Definition known : list value :=
  [Client.initialize_result; Client.initialize_response;
   shutdown_error_response; Client.exit_notification;
   Client.logTrace_notification; Client.configuration_request;
   Client.response_with_unknown_id; VObject []].

Definition JSON_parse : string -> option value := Client.parse_known known.

(** A body that is not JSON. *)
Definition garbage : string := "{oops".

(** A request listener that notifies the server and answers. *)
Definition configuration_listener (params : value) : run ClientResponse :=
  {| sends := [SendNotification "$/progress" VNull];
     returned := Some {| result := VArray []; error := VUndefined |} |}.

Definition requestListeners : gmap string (value -> run ClientResponse) :=
  <["workspace/configuration" := configuration_listener]> ∅.

(** A header line of another name, its length written in hexadecimal. *)
Definition odd_length_line : string := "Any-Header-Name: 0x2" +:+ String CR "".

(** A second header line, as servers send it. *)
Definition content_type_line : string :=
  "Content-Type: application/vscode-jsonrpc; charset=utf-8" +:+ String CR "".

End Scenario.

(** ** Strings and numbers *)

Example to_number_decimal : to_number "23" = Finite (inject_Z 23).
Proof. reflexivity. Qed.
Example to_number_garbage : to_number "abc" = NaN.
Proof. reflexivity. Qed.
Example to_number_empty : to_number "" = Finite 0.
Proof. reflexivity. Qed.
Example to_number_hex : to_number " 0x1F " = Finite (inject_Z 31).
Proof. reflexivity. Qed.
Example to_number_exponent : to_number "1.5e1" = Finite (inject_Z 15).
Proof. reflexivity. Qed.
Example to_number_infinity : to_number "-Infinity" = Infinite true.
Proof. reflexivity. Qed.
Example to_number_bad_exponent : to_number "1e" = NaN.
Proof. reflexivity. Qed.
Example to_number_signed_hex : to_number "+0x10" = NaN.
Proof. reflexivity. Qed.
Example length_to_string_120 : length_to_string 120 = "120".
Proof. reflexivity. Qed.
Example substring_header : substring "Content-Length: 23x" 16 18 = "23".
Proof. reflexivity. Qed.
Example substring_swaps : substring "abc" 16 2 = "c".
Proof. reflexivity. Qed.

Lemma append_cons c a b : String c a +:+ b = String c (a +:+ b).
Proof. reflexivity. Qed.

Lemma append_nil_l a : "" +:+ a = a.
Proof. reflexivity. Qed.

Lemma append_nil_r a : a +:+ "" = a.
Proof. induction a as [|c a IH]; [reflexivity|]. now rewrite append_cons, IH. Qed.

Lemma append_assoc a b c : (a +:+ b) +:+ c = a +:+ (b +:+ c).
Proof. induction a as [|x a IH]; [reflexivity|]. now rewrite !append_cons, IH. Qed.

Lemma length_append a b :
  String.length (a +:+ b) = (String.length a + String.length b)%nat.
Proof. induction a as [|x a IH]; [reflexivity|]. rewrite append_cons. simpl. now rewrite IH. Qed.

Lemma substring_all s : String.substring 0 (String.length s) s = s.
Proof. induction s as [|c s IH]; [reflexivity|]. simpl. now rewrite IH. Qed.

Lemma substring_prefix a b : String.substring 0 (String.length a) (a +:+ b) = a.
Proof.
  induction a as [|c a IH].
  - now destruct b.
  - rewrite append_cons. simpl. now rewrite IH.
Qed.

Lemma substring_skip a b n :
  String.substring (String.length a) n (a +:+ b) = String.substring 0 n b.
Proof. induction a as [|c a IH]; [reflexivity|]. rewrite append_cons. simpl. apply IH. Qed.

(** The slice that the decoder takes out of a header line: what stands
    between the first [a] characters and the last one. *)
Lemma substring_middle a b c :
  substring (a +:+ b +:+ String c "") (Z.of_nat (String.length a))
    (Z.of_nat (String.length (a +:+ b +:+ String c "")) - 1) = b.
Proof.
  unfold substring. rewrite !length_append. simpl String.length.
  set (la := String.length a). set (lb := String.length b).
  replace (Z.min (Z.max (Z.of_nat la) 0) (Z.of_nat (la + (lb + 1))))
    with (Z.of_nat la) by lia.
  replace (Z.min (Z.max (Z.of_nat (la + (lb + 1)) - 1) 0) (Z.of_nat (la + (lb + 1))))
    with (Z.of_nat (la + lb)) by lia.
  replace (Z.min (Z.of_nat la) (Z.of_nat (la + lb))) with (Z.of_nat la) by lia.
  replace (Z.max (Z.of_nat la) (Z.of_nat (la + lb)) - Z.of_nat la)
    with (Z.of_nat lb) by lia.
  rewrite !Nat2Z.id. subst la lb.
  rewrite substring_skip. apply substring_prefix.
Qed.

Lemma decimal_digit_char c d :
  decimal_digit c = Some d ->
  is_whitespace c = false /\ Ascii.eqb c LF = false /\
  Ascii.eqb c "+" = false /\ Ascii.eqb c "-" = false /\
  Ascii.eqb c "I" = false /\
  (Ascii.eqb c "x" || Ascii.eqb c "X" || Ascii.eqb c "o" || Ascii.eqb c "O"
   || Ascii.eqb c "b" || Ascii.eqb c "B")%bool = false.
Proof.
  destruct c as [[] [] [] [] [] [] [] []]; cbv; intros H; try discriminate H;
    repeat split; reflexivity.
Qed.

Lemma all_digits_string_of_uint d : all_digits (NilEmpty.string_of_uint d) = true.
Proof. induction d; simpl; auto. Qed.

Lemma read_digits_string_of_uint d :
  read_digits (NilEmpty.string_of_uint d) = (d, "").
Proof. induction d; simpl; try rewrite IHd; reflexivity. Qed.

Lemma all_digits_no_LF s : all_digits s = true -> no_LF s = true.
Proof.
  induction s as [|c s IH]; simpl; [reflexivity|].
  destruct (decimal_digit c) eqn:E; [|discriminate].
  intros H. apply decimal_digit_char in E as (_ & -> & _). simpl. auto.
Qed.

Lemma all_digits_trim_end s : all_digits s = true -> trim_end s = s.
Proof.
  induction s as [|c s IH]; simpl; [reflexivity|].
  destruct (decimal_digit c) eqn:E; [|discriminate].
  intros H. rewrite (IH H). apply decimal_digit_char in E as (-> & _).
  now destruct s.
Qed.

Lemma all_digits_trim s : all_digits s = true -> trim s = s.
Proof.
  intros H. unfold trim.
  replace (trim_start s) with s; [now apply all_digits_trim_end|].
  destruct s as [|c s]; [reflexivity|]. simpl in *.
  destruct (decimal_digit c) eqn:E; [|discriminate].
  now apply decimal_digit_char in E as (-> & _).
Qed.

Lemma decimal_literal_digits d :
  d <> Nil ->
  decimal_literal false (NilEmpty.string_of_uint d) = Finite (inject_Z (Z.of_uint d)).
Proof.
  intros Hd. unfold decimal_literal.
  replace (String.eqb (NilEmpty.string_of_uint d) "Infinity") with false
    by (destruct d; try reflexivity; congruence).
  rewrite read_digits_string_of_uint.
  replace (match d with Nil => NaN | _ => _ end)
    with (Finite (scale10 (Z.of_uint (Decimal.app d Nil)) (0 - Z.of_nat (nb_digits Nil))))
    by (destruct d; try reflexivity; congruence).
  rewrite DecimalFacts.app_nil_r. unfold scale10. simpl.
  now rewrite Z.mul_1_r.
Qed.

Lemma to_number_digits d :
  d <> Nil ->
  to_number (NilEmpty.string_of_uint d) = Finite (inject_Z (Z.of_uint d)).
Proof.
  intros Hd. rewrite <- (decimal_literal_digits d Hd).
  unfold to_number. rewrite (all_digits_trim _ (all_digits_string_of_uint d)).
  pose proof (all_digits_string_of_uint d) as Hs.
  destruct (NilEmpty.string_of_uint d) as [|c r] eqn:E.
  { destruct d; simpl in E; congruence. }
  simpl in Hs. destruct (decimal_digit c) eqn:Ec; [|discriminate].
  apply decimal_digit_char in Ec as (_ & _ & -> & -> & _).
  destruct r as [|p r]; [reflexivity|].
  simpl in Hs. destruct (decimal_digit p) eqn:Ep; [|discriminate].
  apply decimal_digit_char in Ep as (_ & _ & _ & _ & _ & Ep).
  repeat (apply orb_false_elim in Ep as [Ep ?]).
  repeat match goal with H : Ascii.eqb p _ = false |- _ => rewrite H; clear H end.
  simpl. now destruct (negb (Ascii.eqb c "0")).
Qed.

Lemma to_uint_not_Nil n : N.to_uint n <> Nil.
Proof.
  intros H. pose proof (DecimalN.Unsigned.of_to n) as Hn.
  rewrite H in Hn. simpl in Hn. subst n. discriminate H.
Qed.

(** The length that the encoder writes is the length that the decoder reads. *)
Lemma to_number_length_to_string n :
  to_number (length_to_string n) = Finite (inject_Z (Z.of_nat n)).
Proof.
  unfold length_to_string. rewrite to_number_digits by apply to_uint_not_Nil.
  change (Z.of_uint (N.to_uint (N.of_nat n)))
    with (Z.of_N (N.of_uint (N.to_uint (N.of_nat n)))).
  now rewrite DecimalN.Unsigned.of_to, nat_N_Z.
Qed.

Lemma no_LF_length_to_string n : no_LF (length_to_string n) = true.
Proof. apply all_digits_no_LF, all_digits_string_of_uint. Qed.

Lemma strict_equals_count_nat k n :
  strict_equals_count k (Finite (inject_Z (Z.of_nat n))) = Nat.eqb k n.
Proof.
  unfold strict_equals_count, Qeq_bool, inject_Z. simpl.
  rewrite !Z.mul_1_r.
  destruct (Nat.eqb_spec k n) as [->|Hne].
  - apply Z.eqb_refl.
  - apply Z.eqb_neq. lia.
Qed.



(** ** The decoder *)

Section Decoder.

Variable JSON_parse : string -> option value.
Variable JSON_stringify : value -> string.
Variable notificationListeners : gmap string (value -> run unit).
Variable requestListeners : gmap string (value -> run ClientResponse).
Variable responseListeners : gmap string (value -> value -> run bool).

Abbreviation interpret :=
  (interpretMessage JSON_stringify notificationListeners requestListeners
     responseListeners).
Abbreviation receive :=
  (onMessageReceived JSON_parse JSON_stringify notificationListeners
     requestListeners responseListeners).
Abbreviation feed_all :=
  (feed JSON_parse JSON_stringify notificationListeners requestListeners
     responseListeners).

(** Running the decoder on [a] and then on [b] is running it on [a +:+ b]:
    where a chunk ends does not matter. *)
Lemma onMessageReceived_append a b d s :
  receive (a +:+ b) d s =
  match receive a d s with
  | Returned d' s' => receive b d' s'
  | Thrown d' s' => Thrown d' s'
  end.
Proof.
  revert d s. induction a as [|c a IH]; intros d s; [reflexivity|].
  rewrite append_cons. simpl.
  destruct (msgStage d).
  - destruct (Ascii.eqb c LF); apply IH.
  - destruct (Ascii.eqb c LF); [destruct (Nat.eqb _ 1)|]; apply IH.
  - destruct (strict_equals_count _ _); [|apply IH].
    destruct (JSON_parse _); [apply IH|reflexivity].
Qed.

(** A stream that one call takes without raising is taken without raising
    in any chunks, with the same result; and chunks that are taken without
    raising are taken so in one piece. *)
Lemma feed_flatten chunks d s d' s' :
  receive (flatten chunks) d s = Returned d' s' ->
  feed_all chunks d s = Returned d' s'.
Proof.
  revert d s. induction chunks as [|a chunks IH]; intros d s; [now intros H|].
  simpl. rewrite onMessageReceived_append.
  destruct (receive a d s); [apply IH|discriminate].
Qed.

Lemma feed_returned chunks d s d' s' :
  feed_all chunks d s = Returned d' s' ->
  receive (flatten chunks) d s = Returned d' s'.
Proof.
  revert d s. induction chunks as [|a chunks IH]; intros d s; [now intros H|].
  simpl. rewrite onMessageReceived_append.
  destruct (receive a d s) as [d1 s1|d1 s1]; [apply IH|].
  now destruct (feed_all chunks d1 s1).
Qed.

Lemma feed_flatten_ex chunks d s s' (Q : decoder -> Prop) :
  (exists d', receive (flatten chunks) d s = Returned d' s' /\ Q d') ->
  exists d', feed_all chunks d s = Returned d' s' /\ Q d'.
Proof.
  intros (d' & Hrun & HQ). exists d'. split; [now apply feed_flatten|exact HQ].
Qed.

(** Scanning a header line up to its terminator. *)
Lemma scan_header a b d s :
  no_LF a = true -> msgStage d = HEADER ->
  receive (a +:+ b) d s =
  receive b {| msgStage := HEADER; received := received d +:+ a;
               awaitLength := awaitLength d; readLength := readLength d |} s.
Proof.
  revert d. induction a as [|c a IH]; intros d Ha Hd.
  - rewrite append_nil_l, append_nil_r. now destruct d; simpl in *; subst.
  - rewrite append_cons. simpl in Ha. apply andb_prop in Ha as [Hc Ha].
    apply negb_true_iff in Hc. simpl. rewrite Hd, Hc.
    rewrite IH by auto. simpl.
    now rewrite append_assoc.
Qed.

Lemma scan_header_end a b d s :
  no_LF a = true -> msgStage d = HEADER_END ->
  receive (a +:+ b) d s =
  receive b {| msgStage := HEADER_END; received := received d +:+ a;
               awaitLength := awaitLength d; readLength := readLength d |} s.
Proof.
  revert d. induction a as [|c a IH]; intros d Ha Hd.
  - rewrite append_nil_l, append_nil_r. now destruct d; simpl in *; subst.
  - rewrite append_cons. simpl in Ha. apply andb_prop in Ha as [Hc Ha].
    apply negb_true_iff in Hc. simpl. rewrite Hd, Hc.
    rewrite IH by auto. simpl.
    now rewrite append_assoc.
Qed.

(** Counting the body: the [n] characters a frame announces, the last of
    which completes it. *)
Lemma scan_body body rest d s n :
  msgStage d = BODY ->
  awaitLength d = Finite (inject_Z (Z.of_nat n)) ->
  body <> "" ->
  (readLength d + String.length body)%nat = n ->
  receive (body +:+ rest) d s =
  match JSON_parse (received d +:+ body) with
  | Some obj => receive rest (after_frame n) (interpret obj s)
  | None =>
      Thrown {| msgStage := HEADER; received := received d +:+ body;
                awaitLength := awaitLength d; readLength := 0 |} s
  end.
Proof.
  revert d. induction body as [|c body IH]; intros d Hd Ha Hne Hlen; [congruence|].
  rewrite append_cons. simpl. rewrite Hd, Ha, strict_equals_count_nat.
  destruct body as [|c' body].
  - simpl in Hlen. replace (S (readLength d) =? n)%nat with true
      by (symmetry; apply Nat.eqb_eq; lia).
    rewrite append_nil_l. reflexivity.
  - replace (S (readLength d) =? n)%nat with false
      by (symmetry; apply Nat.eqb_neq; simpl in Hlen; lia).
    rewrite IH; simpl; auto; try congruence.
    + now rewrite append_assoc.
    + simpl in Hlen. lia.
Qed.

(** One frame written by an encoder, read by a decoder that is between two
    frames: the body is parsed and dispatched once, and the decoder is
    between two frames again. *)
Lemma receive_frame msgStr rest d s :
  idle d -> msgStr <> "" ->
  receive (frame msgStr +:+ rest) d s =
  match JSON_parse msgStr with
  | Some obj => receive rest (after_frame (String.length msgStr)) (interpret obj s)
  | None =>
      Thrown {| msgStage := HEADER; received := msgStr;
                awaitLength := Finite (inject_Z (Z.of_nat (String.length msgStr)));
                readLength := 0 |} s
  end.
Proof.
  intros (Hst & Hrec & Hread) Hne. unfold frame, CRLF.
  set (len := length_to_string (String.length msgStr)).
  replace (("Content-Length: " +:+ len +:+ String CR (String LF "")
            +:+ String CR (String LF "") +:+ msgStr) +:+ rest)
    with (("Content-Length: " +:+ len +:+ String CR "")
            +:+ String LF (String CR (String LF (msgStr +:+ rest)))).
  2:{ rewrite !append_assoc. reflexivity. }
  rewrite scan_header; auto.
  2:{ change (no_LF ("Content-Length: " +:+ len +:+ String CR "") = true).
      assert (H : forall a b, no_LF a = true -> no_LF b = true -> no_LF (a +:+ b) = true).
      { induction a as [|c a IH]; intros b Ha Hb; [exact Hb|].
        rewrite append_cons. simpl in *. apply andb_prop in Ha as [-> Ha]. simpl. auto. }
      apply H; [reflexivity|]. apply H; [apply no_LF_length_to_string|reflexivity]. }
  rewrite Hrec, append_nil_l.
  cbn [onMessageReceived msgStage received awaitLength readLength].
  change (Ascii.eqb LF LF) with true. change (Ascii.eqb CR LF) with false.
  cbv iota.
  unfold contentLength.
  rewrite substring_middle. subst len. rewrite to_number_length_to_string.
  cbn [onMessageReceived msgStage received awaitLength readLength].
  change (Ascii.eqb LF LF) with true. change (Ascii.eqb CR LF) with false.
  cbv iota. rewrite append_nil_l. simpl String.length. simpl Nat.eqb. cbv iota.
  rewrite scan_body with (n := String.length msgStr); simpl; auto.
  now rewrite Hread.
Qed.

End Decoder.

(** ** The dispatcher and the ledger *)

Section Dispatcher.

Variable JSON_parse : string -> option value.
Variable JSON_stringify : value -> string.
Variable notificationListeners : gmap string (value -> run unit).
Variable requestListeners : gmap string (value -> run ClientResponse).
Variable responseListeners : gmap string (value -> value -> run bool).

Abbreviation interpret :=
  (interpretMessage JSON_stringify notificationListeners requestListeners
     responseListeners).
Abbreviation receive :=
  (onMessageReceived JSON_parse JSON_stringify notificationListeners
     requestListeners responseListeners).
Abbreviation perform_sends := (perform_all JSON_stringify).

(** What a listener's sends do: they write frames, and [sendRequest] files
    the request it writes. *)
Lemma perform_all_cons x l s :
  perform_sends (x :: l) s = perform_sends l (perform JSON_stringify x s).
Proof. reflexivity. Qed.

Lemma perform_all_invocations l s :
  List.filter is_Invoked (io (perform_sends l s)) = List.filter is_Invoked (io s).
Proof.
  revert s. induction l as [|x l IH]; intros s; [reflexivity|].
  rewrite perform_all_cons, IH.
  destruct x; simpl; rewrite List.filter_app; simpl; apply app_nil_r.
Qed.

Lemma perform_all_keeps l s k :
  is_Some (pendingRequests s !! k) ->
  is_Some (pendingRequests (perform_sends l s) !! k).
Proof.
  revert s. induction l as [|x l IH]; intros s Hk; [exact Hk|].
  rewrite perform_all_cons. apply IH. destruct x; simpl; [|exact Hk].
  destruct (decide (uuid = k)) as [->|Hne].
  - rewrite lookup_insert_eq. eauto.
  - now rewrite lookup_insert_ne.
Qed.

Lemma sendRequest_consistent uuid method params s :
  ledger_consistent s ->
  ledger_consistent (sendRequest JSON_stringify uuid method params s).
Proof.
  intros Hs k msg. simpl. destruct (decide (uuid = k)) as [->|Hne].
  - rewrite lookup_insert_eq. now intros [= <-].
  - rewrite lookup_insert_ne by exact Hne. apply Hs.
Qed.

Lemma perform_all_consistent l s :
  ledger_consistent s -> ledger_consistent (perform_sends l s).
Proof.
  revert s. induction l as [|x l IH]; intros s Hs; [exact Hs|].
  rewrite perform_all_cons. apply IH. destruct x; simpl perform.
  - now apply sendRequest_consistent.
  - exact Hs.
Qed.

Lemma map_delete_consistent id s :
  ledger_consistent s ->
  ledger_consistent {| pendingRequests := map_delete id (pendingRequests s);
                       io := io s |}.
Proof.
  intros Hs k msg. simpl. destruct id; simpl; try apply Hs.
  destruct (decide (s0 = k)) as [->|Hne].
  - now rewrite lookup_delete_eq.
  - rewrite lookup_delete_ne by exact Hne. apply Hs.
Qed.

Lemma emit_consistent e s : ledger_consistent s -> ledger_consistent (emit e s).
Proof. intros Hs. exact Hs. Qed.

Lemma interpretMessage_consistent obj s :
  ledger_consistent s -> ledger_consistent (interpret obj s).
Proof.
  intros Hs. unfold interpretMessage.
  destruct (has_property "method" obj) as [[]|]; [| |exact Hs].
  - destruct (has_property "id" obj) as [[]|]; [| |exact Hs].
    + destruct (map_get requestListeners _) as [fn|]; [|exact Hs].
      destruct (returned _); now apply perform_all_consistent.
    + destruct (map_get notificationListeners _) as [fn|]; [|exact Hs].
      destruct (returned _); now apply perform_all_consistent.
  - assert (Hresp : forall id,
      ledger_consistent
        match map_get (pendingRequests s) id with
        | Some request =>
            match map_get responseListeners (get request "method") with
            | Some fn =>
                let r := fn request obj in
                let s0 := emit (Invoked ResponseTable (ToString (get request "method"))
                                  [request; obj]) s in
                let s1 := perform_sends (sends r) s0 in
                match returned r with
                | Some shouldRemove =>
                    if shouldRemove
                    then {| pendingRequests := map_delete id (pendingRequests s1);
                            io := io s1 |}
                    else s1
                | None => emit Rejected s1
                end
            | None => s
            end
        | None => emit (ShowErrorMessage "Pending request not found.") s
        end).
    { intros id. destruct (map_get (pendingRequests s) id) as [request|]; [|exact Hs].
      destruct (map_get responseListeners _) as [fn|]; [|exact Hs].
      cbv zeta. destruct (returned _) as [[]|].
      - apply map_delete_consistent. now apply perform_all_consistent.
      - now apply perform_all_consistent.
      - now apply perform_all_consistent. }
    destruct (get obj "id"); try apply Hresp. exact Hs.
Qed.

Lemma onMessageReceived_consistent data d s :
  ledger_consistent s ->
  match receive data d s with
  | Returned _ s' | Thrown _ s' => ledger_consistent s'
  end.
Proof.
  revert d s. induction data as [|c data IH]; intros d s Hs; [exact Hs|].
  simpl. destruct (msgStage d).
  - destruct (Ascii.eqb c LF); now apply IH.
  - destruct (Ascii.eqb c LF); [destruct (Nat.eqb _ 1)|]; now apply IH.
  - destruct (strict_equals_count _ _); [|now apply IH].
    destruct (JSON_parse _); [|exact Hs].
    apply IH. now apply interpretMessage_consistent.
Qed.

(** C10. Ledger consistency: in every session reachable from the empty
    ledger by calls of the encoders, dispatches and incoming chunks, every
    entry of [pendingRequests] maps its key to a stored request whose [id]
    is that key. *)
Theorem C10_ledger_consistent s :
  reachable JSON_parse JSON_stringify notificationListeners requestListeners
    responseListeners s ->
  ledger_consistent s.
Proof.
  induction 1 as [|s uuid method params _ IH|s method params _ IH
                  |s request result error _ IH|s obj _ IH
                  |s data d d' s' _ IH Hrun|s data d d' s' _ IH Hrun].
  - intros k msg. simpl. now rewrite lookup_empty.
  - now apply sendRequest_consistent.
  - exact IH.
  - exact IH.
  - now apply interpretMessage_consistent.
  - pose proof (onMessageReceived_consistent data d s IH) as H.
    now rewrite Hrun in H.
  - pose proof (onMessageReceived_consistent data d s IH) as H.
    now rewrite Hrun in H.
Qed.

(** C2. Correlation: [sendRequest] files the request under its id [X] and
    then writes its frame; as long as [X] is pending, an inbound response
    carrying [X] invokes exactly the response listener registered under
    the request's method, with the stored request and the response, and [X]
    leaves the ledger exactly when that listener returns true. *)
Theorem C2_correlation (s later : session) (X method : string)
    (params response : value) (fn : value -> value -> run bool) :
  let request := RequestMessage X method params in
  let sent := sendRequest JSON_stringify X method params s in
  let after := interpret response later in
  pendingRequests later !! X = pendingRequests sent !! X ->
  has_property "method" response = Some false ->
  get response "id" = VString X ->
  responseListeners !! method = Some fn ->
  pendingRequests sent !! X = Some request /\
  io sent = io s ++ [Write (frame (JSON_stringify request))] /\
  List.filter is_Invoked (io after)
    = List.filter is_Invoked (io later)
        ++ [Invoked ResponseTable method [request; response]] /\
  (pendingRequests after !! X = None <-> returned (fn request response) = Some true) /\
  (returned (fn request response) = Some false -> is_Some (pendingRequests after !! X)).
Proof.
  intros request sent after Hlater Hmethod Hid Hfn.
  assert (Hsent : pendingRequests sent !! X = Some request)
    by apply lookup_insert_eq.
  rewrite Hsent in Hlater.
  split; [exact Hsent|]. split; [reflexivity|].
  assert (Hkeep : is_Some (pendingRequests
            (perform_sends (sends (fn request response))
               (emit (Invoked ResponseTable method [request; response]) later)) !! X)).
  { apply perform_all_keeps. simpl. rewrite Hlater. eauto. }
  subst after. unfold interpretMessage. rewrite Hmethod, Hid.
  cbn [map_get]. rewrite Hlater.
  change (get request "method") with (VString method).
  cbn [map_get ToString]. rewrite Hfn. cbv zeta.
  destruct (returned (fn request response)) as [[]|] eqn:Hret.
  - cbn [io pendingRequests map_delete]. rewrite lookup_delete_eq.
    rewrite perform_all_invocations. simpl. rewrite List.filter_app. simpl.
    repeat split; auto; discriminate.
  - rewrite perform_all_invocations. simpl. rewrite List.filter_app. simpl.
    repeat split; auto; try discriminate.
    intros HNone. rewrite HNone in Hkeep. now destruct Hkeep.
  - cbn [io pendingRequests emit]. rewrite List.filter_app.
    rewrite perform_all_invocations. simpl. rewrite List.filter_app. simpl.
    rewrite app_nil_r.
    repeat split; auto; try discriminate.
    intros HNone. rewrite HNone in Hkeep. now destruct Hkeep.
Qed.


(** C8 (as the code has it). A response whose id matches a pending call
    whose method has no listener in the response table changes nothing: the
    pending call stays in the ledger and nothing is reported. *)
Theorem C8_no_listener_keeps_entry (response request : value) (s : session) :
  has_property "method" response = Some false ->
  get response "id" <> VNull ->
  map_get (pendingRequests s) (get response "id") = Some request ->
  map_get responseListeners (get request "method") = None ->
  interpret response s = s /\
  map_get (pendingRequests (interpret response s)) (get response "id") = Some request.
Proof.
  intros Hmethod Hid Hreq Hnone.
  assert (H : interpret response s = s).
  { unfold interpretMessage. rewrite Hmethod.
    destruct (get response "id"); try congruence; now rewrite Hreq, Hnone. }
  now rewrite H.
Qed.

(** The three reports of the response branch: a null id, an id that is
    not pending, and a response without any [id] property, which is handled
    as an id that is not pending. *)
Lemma interpretMessage_null_id (response : value) (s : session) :
  has_property "method" response = Some false ->
  get response "id" = VNull ->
  interpret response s
    = emit (ShowErrorMessage "Missing id field form response.")
        (emit (ConsoleLog response) s).
Proof. intros Hmethod Hid. unfold interpretMessage. now rewrite Hmethod, Hid. Qed.

Lemma interpretMessage_unknown_id (response : value) (s : session) :
  has_property "method" response = Some false ->
  get response "id" <> VNull ->
  map_get (pendingRequests s) (get response "id") = None ->
  interpret response s = emit (ShowErrorMessage "Pending request not found.") s.
Proof.
  intros Hmethod Hid Hnone. unfold interpretMessage. rewrite Hmethod.
  destruct (get response "id"); try congruence; now rewrite Hnone.
Qed.

Lemma interpretMessage_missing_id (response : value) (s : session) :
  has_property "method" response = Some false ->
  has_property "id" response = Some false ->
  interpret response s = emit (ShowErrorMessage "Pending request not found.") s.
Proof.
  intros Hmethod Hid.
  assert (Hget : get response "id" = VUndefined).
  { destruct response; try discriminate Hid; [reflexivity|].
    simpl in *. now destruct (assoc "id" props). }
  apply interpretMessage_unknown_id; rewrite ?Hget; auto; discriminate.
Qed.

End Dispatcher.

(** ** Streams of frames *)

Section Streams.

Variable JSON_parse : string -> option value.
Variable JSON_stringify : value -> string.
Variable notificationListeners : gmap string (value -> run unit).
Variable requestListeners : gmap string (value -> run ClientResponse).
Variable responseListeners : gmap string (value -> value -> run bool).

Abbreviation interpret :=
  (interpretMessage JSON_stringify notificationListeners requestListeners
     responseListeners).
Abbreviation receive :=
  (onMessageReceived JSON_parse JSON_stringify notificationListeners
     requestListeners responseListeners).
Abbreviation feed_all :=
  (feed JSON_parse JSON_stringify notificationListeners requestListeners
     responseListeners).
Abbreviation perform_sends := (perform_all JSON_stringify).

(** What the three encoders write. *)
Lemma sendRequest_writes uuid method params s :
  io (sendRequest JSON_stringify uuid method params s)
  = io s ++ [Write (frame (JSON_stringify (RequestMessage uuid method params)))].
Proof. reflexivity. Qed.

Lemma sendNotification_writes method params s :
  io (sendNotification JSON_stringify method params s)
  = io s ++ [Write (frame (JSON_stringify (NotificationMessage method params)))].
Proof. reflexivity. Qed.

Lemma sendResponse_writes request result error s :
  io (sendResponse JSON_stringify request result error s)
  = io s ++ [Write (frame (JSON_stringify
                             (ResponseMessage (get request "id") result error)))].
Proof. reflexivity. Qed.

(** C1. Round trip: the frame an encoder writes for a message [msg] (a
    request, a notification or a response: [frame (JSON_stringify msg)]),
    fed to a decoder that is between two frames, in one chunk or cut into
    chunks at any offsets, is dispatched exactly once, as the payload that
    [JSON.parse] makes of the message's serialization; the decoder is then
    between two frames again. *)
Theorem C1_round_trip (msg payload : value) (chunks : list string)
    (d : decoder) (s : session) :
  idle d ->
  JSON_stringify msg <> "" ->
  JSON_parse (JSON_stringify msg) = Some payload ->
  flatten chunks = frame (JSON_stringify msg) ->
  feed_all chunks d s
  = Returned (after_frame (String.length (JSON_stringify msg)))
      (interpret payload s).
Proof.
  intros Hd Hne Hparse Hchunks.
  apply feed_flatten. rewrite Hchunks, <- (append_nil_r (frame _)).
  rewrite receive_frame by assumption. now rewrite Hparse.
Qed.

Lemma idle_after_frame n : idle (after_frame n).
Proof. now repeat split. Qed.


Lemma onMessageReceived_counter_reset data d s :
  counter_reset d ->
  match receive data d s with
  | Returned d' _ | Thrown d' _ => counter_reset d'
  end.
Proof.
  revert d s. induction data as [|c data IH]; intros d s Hd; [exact Hd|].
  simpl. destruct (msgStage d) eqn:Hst.
  - destruct (Ascii.eqb c LF); apply IH; intros _; simpl; apply Hd; congruence.
  - destruct (Ascii.eqb c LF); [destruct (Nat.eqb _ 1)|]; apply IH;
      intros H; simpl in *; try congruence; apply Hd; congruence.
  - destruct (strict_equals_count _ _).
    + destruct (JSON_parse _); [apply IH|]; now intros _.
    + apply IH. intros H. simpl in H. congruence.
Qed.

Lemma feed_counter_reset chunks d s :
  counter_reset d ->
  match feed_all chunks d s with
  | Returned d' _ | Thrown d' _ => counter_reset d'
  end.
Proof.
  revert d s. induction chunks as [|a chunks IH]; intros d s Hd; [exact Hd|].
  simpl. pose proof (onMessageReceived_counter_reset a d s Hd) as Ha.
  destruct (receive a d s) as [d1 s1|d1 s1]; [now apply IH|].
  specialize (IH d1 s1 Ha). now destruct (feed_all chunks d1 s1).
Qed.

(** C4 (as the code has it). In the HEADER_END stage a line feed moves the
    decoder to BODY, with an empty accumulator and the body counter at 0,
    exactly when the line accumulated before it is one character long, as
    the carriage return of a blank CR LF line is; after any other line, an
    empty one included, the decoder stays in HEADER_END. *)
Theorem C4_blank_line (chunks : list string) (s0 : session)
    (d : decoder) (s : session) (rest : string) :
  feed_all chunks initial_decoder s0 = Returned d s ->
  msgStage d = HEADER_END ->
  receive (String LF rest) d s
  = receive rest
      {| msgStage := if (String.length (received d) =? 1)%nat then BODY else HEADER_END;
         received := "";
         awaitLength := awaitLength d;
         readLength := 0 |} s.
Proof.
  intros Hfeed Hst.
  assert (Hread : readLength d = 0%nat).
  { pose proof (feed_counter_reset chunks initial_decoder s0) as H.
    rewrite Hfeed in H. apply H; [now intros _|congruence]. }
  simpl. rewrite Hst. change (Ascii.eqb LF LF) with true. cbv iota.
  rewrite Hread. now destruct (Nat.eqb _ 1).
Qed.

(** Once the expected length is NaN and the decoder has left the HEADER
    stage, it takes in whatever comes and never completes a body. *)
Lemma onMessageReceived_NaN data d s :
  msgStage d <> HEADER -> awaitLength d = NaN ->
  exists d',
    receive data d s = Returned d' s /\ msgStage d' <> HEADER /\ awaitLength d' = NaN.
Proof.
  revert d. induction data as [|c data IH]; intros d Hst Ha; [now exists d|].
  simpl. destruct (msgStage d) eqn:E; [congruence| |].
  - destruct (Ascii.eqb c LF); [destruct (Nat.eqb _ 1)|]; apply IH; simpl; congruence.
  - rewrite Ha. simpl. apply IH; simpl; congruence.
Qed.

(** C6 (as the code has it). The decoder takes as length the first line
    from its 17th character up to, but without, its last character before
    the line feed (the carriage return of a CR LF line).  When unary plus
    makes NaN of that text, as it does of the "abc" of
    "Content-Length: abc" CR LF, the decoder raises nothing: the expected
    length is NaN, and whatever follows the header line, however it is cut
    into chunks, is taken in without any payload being dispatched and
    without any report. *)
Theorem C6_unparsable_length (line rest : string) (chunks : list string)
    (d : decoder) (s : session) :
  idle d ->
  no_LF line = true ->
  to_number (substring line contentLength (Z.of_nat (String.length line) - 1)) = NaN ->
  flatten chunks = line +:+ String LF rest ->
  exists d',
    feed_all chunks d s = Returned d' s /\
    msgStage d' <> HEADER /\ awaitLength d' = NaN.
Proof.
  intros (Hst & Hrec & Hread) Hline Hnan Hchunks.
  apply feed_flatten_ex
    with (Q := fun d' => msgStage d' <> HEADER /\ awaitLength d' = NaN).
  rewrite Hchunks, scan_header by assumption.
  rewrite Hrec, append_nil_l.
  cbn [onMessageReceived msgStage received awaitLength readLength].
  change (Ascii.eqb LF LF) with true. cbv iota.
  apply onMessageReceived_NaN; simpl; [discriminate|exact Hnan].
Qed.

(** C7 (as the code has it). A listener that raises is not caught by the
    dispatcher: the exception ends the [async] call of [interpretMessage]
    with a rejected promise, no response is written for a request and
    nothing is reported for a notification.  The decoder's variables and
    the ledger are then what they are when the listener, after the same
    sends, returns normally. *)
Theorem C7_listener_raises (body : string) (obj : value) (m : string)
    (l : list send) (d : decoder) (s : session) :
  idle d -> body <> "" ->
  JSON_parse body = Some obj ->
  has_property "method" obj = Some true ->
  get obj "method" = VString m ->
  (forall (fn : value -> run ClientResponse) (answer : ClientResponse),
     has_property "id" obj = Some true ->
     requestListeners !! m = Some fn ->
     fn (get obj "params") = {| sends := l; returned := None |} ->
     let called :=
       perform_sends l (emit (Invoked RequestTable m [get obj "params"]) s) in
     let returning :=
       <[m := fun _ => {| sends := l; returned := Some answer |}]> requestListeners in
     receive (frame body) d s
       = Returned (after_frame (String.length body)) (emit Rejected called) /\
     onMessageReceived JSON_parse JSON_stringify notificationListeners returning
         responseListeners (frame body) d s
       = Returned (after_frame (String.length body))
           (sendResponse JSON_stringify obj (result answer) (error answer) called) /\
     pendingRequests (emit Rejected called)
       = pendingRequests
           (sendResponse JSON_stringify obj (result answer) (error answer) called)) /\
  (forall (fn : value -> run unit),
     has_property "id" obj = Some false ->
     notificationListeners !! m = Some fn ->
     fn (get obj "params") = {| sends := l; returned := None |} ->
     let called :=
       perform_sends l (emit (Invoked NotificationTable m [get obj "params"]) s) in
     let returning :=
       <[m := fun _ => {| sends := l; returned := Some tt |}]> notificationListeners in
     receive (frame body) d s
       = Returned (after_frame (String.length body)) (emit Rejected called) /\
     onMessageReceived JSON_parse JSON_stringify returning requestListeners
         responseListeners (frame body) d s
       = Returned (after_frame (String.length body)) called /\
     pendingRequests (emit Rejected called) = pendingRequests called).
Proof.
  intros Hd Hne Hparse Hmethod Hm. split.
  - intros fn answer Hid Hfn Hrun called returning.
    rewrite <- (append_nil_r (frame body)), !receive_frame, Hparse by assumption.
    cbn [onMessageReceived]. unfold interpretMessage.
    rewrite Hmethod, Hid, Hm. cbn [map_get ToString]. subst returning.
    rewrite Hfn, lookup_insert_eq, Hrun. cbn [sends returned].
    repeat split.
  - intros fn Hid Hfn Hrun called returning.
    rewrite <- (append_nil_r (frame body)), !receive_frame, Hparse by assumption.
    cbn [onMessageReceived]. unfold interpretMessage.
    rewrite Hmethod, Hid, Hm. cbn [map_get ToString]. subst returning.
    rewrite Hfn, lookup_insert_eq, Hrun. cbn [sends returned].
    repeat split.
Qed.

End Streams.

(** ** The properties at work on the client's own tables *)

Section Examples.

Abbreviation client_interpret :=
  (interpretMessage Client.stringify Client.notificationListeners
     Client.requestListeners Client.responseListeners).
Abbreviation client_receive :=
  (onMessageReceived Client.JSON_parse Client.stringify
     Client.notificationListeners Client.requestListeners
     Client.responseListeners).
Abbreviation client_feed :=
  (feed Client.JSON_parse Client.stringify Client.notificationListeners
     Client.requestListeners Client.responseListeners).

(** The frame of the client's [initialize] request, cut inside the header,
    inside a line terminator and inside the body, comes back as that
    request. *)
Lemma C1_round_trip_witness :
  client_feed
    (Client.chunks_of [10; 9; 1; 30]%nat
       (frame (Client.stringify Client.initialize_request)))
    initial_decoder initial_session
  = Returned (after_frame 62)
      (client_interpret Client.initialize_request initial_session).
Proof.
  apply (C1_round_trip Client.JSON_parse Client.stringify
           Client.notificationListeners Client.requestListeners
           Client.responseListeners
           Client.initialize_request Client.initialize_request
           (Client.chunks_of [10; 9; 1; 30]%nat
              (frame (Client.stringify Client.initialize_request)))
           initial_decoder initial_session).
  - repeat split.
  - vm_compute. discriminate.
  - vm_compute. reflexivity.
  - vm_compute. reflexivity.
Defined.

(** The [initialize] exchange: the request is filed under its id, and the
    response that carries the server's capabilities takes it out. *)
Lemma C2_correlation_witness :
  let sent :=
    sendRequest Client.stringify "abc" "initialize" (VObject []) initial_session in
  let after := client_interpret Client.initialize_result sent in
  pendingRequests sent !! "abc" = Some Client.initialize_request /\
  pendingRequests after !! "abc" = None.
Proof.
  intros sent after.
  destruct (C2_correlation Client.stringify Client.notificationListeners
              Client.requestListeners Client.responseListeners
              initial_session sent "abc" "initialize" (VObject [])
              Client.initialize_result Client.onInitializeResponse
              eq_refl eq_refl eq_refl eq_refl) as (Hsent & _ & _ & Hgone & _).
  split; [exact Hsent|]. apply Hgone. reflexivity.
Defined.


(** After the Content-Length line of a CR LF frame the accumulated line is
    the carriage return, and the line feed opens the body. *)
Lemma C4_blank_line_witness :
  client_receive (String LF "")
    {| msgStage := HEADER_END; received := String CR "";
       awaitLength := Finite (inject_Z 2); readLength := 0 |} initial_session
  = Returned
      {| msgStage := BODY; received := "";
         awaitLength := Finite (inject_Z 2); readLength := 0 |} initial_session.
Proof.
  apply (C4_blank_line Client.JSON_parse Client.stringify
           Client.notificationListeners Client.requestListeners
           Client.responseListeners
           ["Content-Length: 2" +:+ CRLF +:+ String CR ""] initial_session
           {| msgStage := HEADER_END; received := String CR "";
              awaitLength := Finite (inject_Z 2); readLength := 0 |}
           initial_session "").
  - vm_compute. reflexivity.
  - reflexivity.
Defined.

(** The same frame with bare line feeds is not decoded: the length is read
    as 0, the blank line does not open the body, and the body ends up in
    the header accumulator; with CR LF the payload is dispatched. *)
Lemma C4_counterexample :
  client_receive (Client.lf_frame (Client.stringify (VObject [])))
    initial_decoder initial_session
  = Returned
      {| msgStage := HEADER_END; received := Client.stringify (VObject []);
         awaitLength := Finite 0; readLength := 0 |} initial_session
  /\
  client_receive (frame (Client.stringify (VObject [])))
    initial_decoder initial_session
  = Returned (after_frame 2) (client_interpret (VObject []) initial_session).
Proof. split; vm_compute; reflexivity. Qed.


(** A header line whose length reads "abc". *)
Lemma C6_unparsable_length_witness :
  exists d',
    client_feed
      (Client.chunks_of [12; 11]%nat
         (Client.unparsable_frame (Client.stringify (VObject []))))
      initial_decoder initial_session
    = Returned d' initial_session /\
    msgStage d' <> HEADER /\ awaitLength d' = NaN.
Proof.
  apply (C6_unparsable_length Client.JSON_parse Client.stringify
           Client.notificationListeners Client.requestListeners
           Client.responseListeners
           ("Content-Length: abc" +:+ String CR "")
           (String CR (String LF (Client.stringify (VObject []))))).
  - repeat split.
  - reflexivity.
  - reflexivity.
  - vm_compute. reflexivity.
Defined.

(** The call returns, nothing is reported, and the body is being counted
    toward a length that no count equals. *)
Lemma C6_counterexample :
  client_receive (Client.unparsable_frame (Client.stringify (VObject [])))
    initial_decoder initial_session
  = Returned
      {| msgStage := BODY; received := Client.stringify (VObject []);
         awaitLength := NaN; readLength := 2 |} initial_session.
Proof. vm_compute. reflexivity. Qed.

(** A [workspace/configuration] request whose listener raises, and a
    [$/logTrace] notification without parameters, on which
    [onLogTraceNotification] raises. *)
Lemma C7_listener_raises_witness :
  onMessageReceived Client.JSON_parse Client.stringify
    Client.notificationListeners Client.example_requestListeners
    Client.responseListeners
    (frame (Client.stringify Client.configuration_request))
    initial_decoder initial_session
  = Returned (after_frame (String.length (Client.stringify Client.configuration_request)))
      {| pendingRequests := ∅;
         io := [Invoked RequestTable "workspace/configuration" [VUndefined];
                Rejected] |}
  /\
  onMessageReceived Client.JSON_parse Client.stringify
    Client.notificationListeners Client.example_requestListeners
    Client.responseListeners
    (frame (Client.stringify Client.logTrace_notification))
    initial_decoder initial_session
  = Returned (after_frame (String.length (Client.stringify Client.logTrace_notification)))
      {| pendingRequests := ∅;
         io := [Invoked NotificationTable "$/logTrace" [VUndefined]; Rejected] |}.
Proof.
  split.
  - destruct (C7_listener_raises Client.JSON_parse Client.stringify
                Client.notificationListeners Client.example_requestListeners
                Client.responseListeners
                (Client.stringify Client.configuration_request)
                Client.configuration_request "workspace/configuration" []
                initial_decoder initial_session) as [Hrequest _].
    + repeat split.
    + vm_compute. discriminate.
    + vm_compute. reflexivity.
    + reflexivity.
    + reflexivity.
    + destruct (Hrequest Client.failing_listener
                  {| result := VNull; error := VUndefined |}
                  eq_refl eq_refl eq_refl) as (Hrun & _ & _).
      exact Hrun.
  - destruct (C7_listener_raises Client.JSON_parse Client.stringify
                Client.notificationListeners Client.example_requestListeners
                Client.responseListeners
                (Client.stringify Client.logTrace_notification)
                Client.logTrace_notification "$/logTrace" []
                initial_decoder initial_session) as [_ Hnotification].
    + repeat split.
    + vm_compute. discriminate.
    + vm_compute. reflexivity.
    + reflexivity.
    + reflexivity.
    + destruct (Hnotification Client.onLogTraceNotification
                  eq_refl eq_refl eq_refl) as (Hrun & _ & _).
      exact Hrun.
Defined.

(** The listener of a request raises: the dispatcher writes nothing, so no
    internal-error response goes out. *)
Lemma C7_counterexample :
  io (interpretMessage Client.stringify Client.notificationListeners
        Client.example_requestListeners Client.responseListeners
        Client.configuration_request initial_session)
  = [Invoked RequestTable "workspace/configuration" [VUndefined]; Rejected].
Proof. vm_compute. reflexivity. Qed.

(** A [textDocument/hover] request has no response listener. *)
Lemma C8_no_listener_keeps_entry_witness :
  let sent :=
    sendRequest Client.stringify "abc" "textDocument/hover" VUndefined
      initial_session in
  client_interpret Client.initialize_response sent = sent.
Proof.
  intros sent.
  apply (C8_no_listener_keeps_entry Client.stringify Client.notificationListeners
           Client.requestListeners Client.responseListeners
           Client.initialize_response
           (RequestMessage "abc" "textDocument/hover" VUndefined) sent).
  - reflexivity.
  - discriminate.
  - reflexivity.
  - reflexivity.
Defined.

(** Its response arrives, and the pending call is still in the ledger. *)
Lemma C8_counterexample :
  pendingRequests
    (client_interpret Client.initialize_response
       (sendRequest Client.stringify "abc" "textDocument/hover" VUndefined
          initial_session)) !! "abc"
  = Some (RequestMessage "abc" "textDocument/hover" VUndefined).
Proof. vm_compute. reflexivity. Qed.

(** C9. A response with a null id is reported as "Missing id field form
    response."; a response without any [id] property is not: it gets the
    report of a response whose id is not pending. *)
Theorem C9_missing_id_report :
  io (client_interpret Client.response_with_null_id initial_session)
    = [ConsoleLog Client.response_with_null_id;
       ShowErrorMessage "Missing id field form response."] /\
  io (client_interpret Client.response_with_unknown_id initial_session)
    = [ShowErrorMessage "Pending request not found."] /\
  io (client_interpret Client.response_without_id initial_session)
    = [ShowErrorMessage "Pending request not found."].
Proof. repeat split. Qed.

(** The ledger after an [initialize] request and a [shutdown] request whose
    response has arrived. *)
Lemma C10_ledger_consistent_witness :
  ledger_consistent
    (client_interpret
       (VObject [("id", VString "def"); ("result", VNull)])
       (sendRequest Client.stringify "def" "shutdown" VUndefined
          (sendRequest Client.stringify "abc" "initialize" (VObject [])
             initial_session))).
Proof.
  apply (C10_ledger_consistent Client.JSON_parse Client.stringify
           Client.notificationListeners Client.requestListeners
           Client.responseListeners).
  apply reachable_interpretMessage.
  apply reachable_sendRequest. apply reachable_sendRequest.
  apply reachable_initial.
Defined.

End Examples.

(** ** More about the decoder *)

Section DecoderBehaviour.

Variable JSON_parse : string -> option value.
Variable JSON_stringify : value -> string.
Variable notificationListeners : gmap string (value -> run unit).
Variable requestListeners : gmap string (value -> run ClientResponse).
Variable responseListeners : gmap string (value -> value -> run bool).

Abbreviation interpret :=
  (interpretMessage JSON_stringify notificationListeners requestListeners
     responseListeners).
Abbreviation receive :=
  (onMessageReceived JSON_parse JSON_stringify notificationListeners
     requestListeners responseListeners).
Abbreviation feed_all :=
  (feed JSON_parse JSON_stringify notificationListeners requestListeners
     responseListeners).

Lemma no_LF_append a b : no_LF a = true -> no_LF b = true -> no_LF (a +:+ b) = true.
Proof.
  induction a as [|c a IH]; intros Ha Hb; [exact Hb|].
  rewrite append_cons. simpl in *. apply andb_prop in Ha as [-> Ha]. simpl. auto.
Qed.

(** The first line of a message, whatever it says: its slice from
    [contentLength] to the last character but one becomes the expected
    length. *)
Lemma receive_first_line line rest d s :
  idle d -> no_LF line = true ->
  receive (line +:+ String LF rest) d s =
  receive rest
    {| msgStage := HEADER_END; received := "";
       awaitLength :=
         to_number (substring line contentLength (Z.of_nat (String.length line) - 1));
       readLength := 0 |} s.
Proof.
  intros (Hst & Hrec & Hread) Hline.
  rewrite scan_header by assumption. rewrite Hrec, append_nil_l.
  cbn [onMessageReceived msgStage received awaitLength readLength].
  change (Ascii.eqb LF LF) with true. cbv iota. now rewrite Hread.
Qed.

(** The Content-Length line that the encoders write. *)
Lemma receive_length_line n rest d s :
  idle d ->
  receive ("Content-Length: " +:+ length_to_string n +:+ CRLF +:+ rest) d s =
  receive rest
    {| msgStage := HEADER_END; received := "";
       awaitLength := Finite (inject_Z (Z.of_nat n)); readLength := 0 |} s.
Proof.
  intros Hd. unfold CRLF.
  replace ("Content-Length: " +:+ length_to_string n
             +:+ String CR (String LF "") +:+ rest)
    with (("Content-Length: " +:+ length_to_string n +:+ String CR "")
            +:+ String LF rest)
    by (now rewrite !append_assoc).
  rewrite receive_first_line; auto.
  - unfold contentLength.
    now rewrite substring_middle, to_number_length_to_string.
  - change (no_LF ("Content-Length: " +:+ length_to_string n +:+ String CR "") = true).
    apply no_LF_append; [reflexivity|].
    apply no_LF_append; [apply no_LF_length_to_string|reflexivity].
Qed.

(** A line of one character, then a line feed, opens the body. *)
Lemma receive_blank_line c rest a s :
  Ascii.eqb c LF = false ->
  receive (String c (String LF rest))
    {| msgStage := HEADER_END; received := ""; awaitLength := a; readLength := 0 |} s =
  receive rest
    {| msgStage := BODY; received := ""; awaitLength := a; readLength := 0 |} s.
Proof.
  intros Hc. cbn [onMessageReceived msgStage received awaitLength readLength].
  rewrite Hc. change (Ascii.eqb LF LF) with true. reflexivity.
Qed.

(** Fewer characters than the body still owes are kept, and nothing else
    happens. *)
Lemma scan_body_partial data d s n :
  msgStage d = BODY ->
  awaitLength d = Finite (inject_Z (Z.of_nat n)) ->
  (readLength d + String.length data < n)%nat ->
  receive data d s =
  Returned {| msgStage := BODY; received := received d +:+ data;
              awaitLength := awaitLength d;
              readLength := readLength d + String.length data |} s.
Proof.
  revert d. induction data as [|c data IH]; intros d Hd Ha Hlen.
  - simpl. rewrite append_nil_r, Nat.add_0_r. now destruct d; simpl in *; subst.
  - simpl in Hlen. simpl. rewrite Hd, Ha, strict_equals_count_nat.
    replace (S (readLength d) =? n)%nat with false
      by (symmetry; apply Nat.eqb_neq; lia).
    rewrite IH; simpl; auto; try lia.
    rewrite append_assoc. simpl. do 3 f_equal. lia.
Qed.

(** Once the counter has passed the expected length, no count equals it
    any more. *)
Lemma scan_body_overshoot data d s n :
  msgStage d = BODY ->
  awaitLength d = Finite (inject_Z (Z.of_nat n)) ->
  (n <= readLength d)%nat ->
  receive data d s =
  Returned {| msgStage := BODY; received := received d +:+ data;
              awaitLength := awaitLength d;
              readLength := readLength d + String.length data |} s.
Proof.
  revert d. induction data as [|c data IH]; intros d Hd Ha Hlen.
  - simpl. rewrite append_nil_r, Nat.add_0_r. now destruct d; simpl in *; subst.
  - simpl. rewrite Hd, Ha, strict_equals_count_nat.
    replace (S (readLength d) =? n)%nat with false
      by (symmetry; apply Nat.eqb_neq; lia).
    rewrite IH; simpl; auto; try lia.
    rewrite append_assoc. simpl. do 3 f_equal. lia.
Qed.

(** X1. Chunk boundaries do not matter as long as no call raises: when a
    stream cut into chunks one way is taken without an exception, the same
    stream cut any other way is taken without an exception too, and leaves
    the decoder and the session in the same state, whatever state the
    decoder starts in. *)
Theorem X1_chunking_irrelevant (chunks1 chunks2 : list string)
    (d d' : decoder) (s s' : session) :
  flatten chunks1 = flatten chunks2 ->
  feed_all chunks1 d s = Returned d' s' ->
  feed_all chunks2 d s = Returned d' s'.
Proof.
  intros H Hrun. apply feed_flatten. rewrite <- H. now apply feed_returned.
Qed.

Lemma frames_cons body bodies : frames (body :: bodies) = frame body +:+ frames bodies.
Proof. reflexivity. Qed.

(** X2. Any number of frames, cut into chunks in any way, are dispatched
    one after the other in the order of the stream, each exactly once, and
    the decoder is between two frames at the end. *)
Theorem X2_frames_in_order (bodies : list string) (payloads : list value)
    (chunks : list string) (d : decoder) (s : session) :
  idle d ->
  Forall2 (fun body payload => body <> "" /\ JSON_parse body = Some payload)
    bodies payloads ->
  flatten chunks = frames bodies ->
  exists d',
    feed_all chunks d s
    = Returned d' (fold_left (fun s payload => interpret payload s) payloads s) /\
    idle d'.
Proof.
  intros Hd Hall Hchunks. apply feed_flatten_ex with (Q := idle).
  rewrite Hchunks. clear Hchunks.
  revert d s Hd. induction Hall as [|body payload bodies payloads [Hne Hp] _ IH];
    intros d s Hd.
  - exists d. now split.
  - rewrite frames_cons, receive_frame, Hp by assumption.
    simpl fold_left. apply IH, idle_after_frame.
Qed.

(** X3. A frame that is cut inside its body: the decoder keeps the part of
    the body it has, dispatches nothing and raises nothing; when the rest
    arrives it resumes at the next character and dispatches the payload. *)
Theorem X3_body_resumed (part missing : string) (payload : value)
    (d : decoder) (s : session) :
  idle d -> missing <> "" ->
  JSON_parse (part +:+ missing) = Some payload ->
  let n := String.length (part +:+ missing) in
  let waiting :=
    {| msgStage := BODY; received := part;
       awaitLength := Finite (inject_Z (Z.of_nat n));
       readLength := String.length part |} in
  receive ("Content-Length: " +:+ length_to_string n +:+ CRLF +:+ CRLF +:+ part) d s
    = Returned waiting s /\
  receive missing waiting s = Returned (after_frame n) (interpret payload s).
Proof.
  intros Hd Hne Hparse n waiting.
  assert (Hn : n = (String.length part + String.length missing)%nat)
    by apply length_append.
  assert (Hmissing : (0 < String.length missing)%nat)
    by (destruct missing; [congruence|simpl; lia]).
  split.
  - rewrite receive_length_line by assumption.
    unfold CRLF. rewrite append_cons, append_cons, append_nil_l.
    rewrite receive_blank_line by reflexivity.
    rewrite scan_body_partial with (n := n); simpl; auto. lia.
  - rewrite <- (append_nil_r missing) at 1.
    rewrite scan_body with (n := n); simpl; auto.
    now rewrite Hparse.
Qed.

(** X4. A body that is not JSON: the call raises, the session is
    untouched, what follows the frame in the same chunk is not looked at,
    and the decoder is left in the HEADER stage with the counter at 0 but
    with the body still in its buffer. *)
Theorem X4_decode_error (body rest : string) (d : decoder) (s : session) :
  idle d -> body <> "" ->
  JSON_parse body = None ->
  receive (frame body +:+ rest) d s
  = Thrown {| msgStage := HEADER; received := body;
              awaitLength := Finite (inject_Z (Z.of_nat (String.length body)));
              readLength := 0 |} s.
Proof. intros Hd Hne Hparse. now rewrite receive_frame, Hparse. Qed.

End DecoderBehaviour.

(** ** Strings that are not numbers *)

Lemma occurs_append_r c a b : occurs c b = true -> occurs c (a +:+ b) = true.
Proof.
  intros Hb. induction a as [|x a IH]; [exact Hb|].
  rewrite append_cons. simpl. rewrite IH. apply orb_true_r.
Qed.

Lemma occurs_append_l c a b : occurs c a = true -> occurs c (a +:+ b) = true.
Proof.
  induction a as [|x a IH]; [discriminate|].
  rewrite append_cons. simpl. intros H. apply orb_prop in H as [->|H]; [reflexivity|].
  rewrite IH by exact H. apply orb_true_r.
Qed.

(** When the first character is not a colon, the colon is further on. *)
Lemma occurs_tail c r :
  occurs COLON (String c r) = true -> Ascii.eqb c COLON = false ->
  occurs COLON r = true.
Proof. cbn [occurs]. intros H Hc. now rewrite Hc in H. Qed.

Lemma occurs_trim_start s :
  occurs COLON s = true -> occurs COLON (trim_start s) = true.
Proof.
  induction s as [|c r IH]; [discriminate|]. intros H. simpl.
  destruct (is_whitespace c) eqn:Hws; [|exact H].
  apply IH, (occurs_tail c r H).
  destruct (Ascii.eqb_spec c COLON) as [->|]; [discriminate Hws|reflexivity].
Qed.

Lemma occurs_trim_end s :
  occurs COLON s = true -> occurs COLON (trim_end s) = true.
Proof.
  induction s as [|c r IH]; [discriminate|]. intros H. simpl in H |- *.
  destruct (Ascii.eqb_spec c COLON) as [->|Hc].
  - now destruct (trim_end r).
  - simpl in H. specialize (IH H).
    destruct (trim_end r) as [|x r']; [discriminate IH|].
    simpl in IH |- *. rewrite IH. apply orb_true_r.
Qed.

Lemma decimal_digit_colon c d : decimal_digit c = Some d -> Ascii.eqb c COLON = false.
Proof.
  destruct (Ascii.eqb_spec c COLON) as [->|]; [discriminate|reflexivity].
Qed.

Lemma read_digits_occurs s :
  occurs COLON s = true -> occurs COLON (snd (read_digits s)) = true.
Proof.
  induction s as [|c r IH]; [discriminate|]. intros H. simpl.
  destruct (decimal_digit c) eqn:Hc; [|exact H].
  apply decimal_digit_colon in Hc. specialize (IH (occurs_tail c r H Hc)).
  now destruct (read_digits r).
Qed.

Lemma read_digits_to_end s :
  occurs COLON s = true ->
  match read_digits s with
  | (Nil, _) => True
  | (_, EmptyString) => False
  | (_, String _ _) => True
  end.
Proof.
  intros H. apply read_digits_occurs in H.
  destruct (read_digits s) as [ds rest]. simpl in H.
  destruct ds; auto; now destruct rest.
Qed.

Lemma read_exponent_occurs s :
  occurs COLON s = true -> read_exponent s = None.
Proof.
  destruct s as [|c r]; [discriminate|]. intros H. simpl.
  destruct (Ascii.eqb c "e" || Ascii.eqb c "E")%bool eqn:He; [|reflexivity].
  assert (Hc : Ascii.eqb c COLON = false).
  { destruct (Ascii.eqb_spec c COLON) as [->|]; [discriminate He|reflexivity]. }
  pose proof (occurs_tail c r H Hc) as Hr.
  assert (Hdigits : forall t, occurs COLON t = true ->
            match read_digits t with
            | (Nil, _) => None
            | (ds, EmptyString) => Some (if false then - Z.of_uint ds else Z.of_uint ds)
            | (_, String _ _) => None
            end = @None Z
            /\ match read_digits t with
            | (Nil, _) => None
            | (ds, EmptyString) => Some (if true then - Z.of_uint ds else Z.of_uint ds)
            | (_, String _ _) => None
            end = @None Z).
  { intros t Ht. apply read_digits_to_end in Ht.
    destruct (read_digits t) as [ds rest].
    destruct ds; destruct rest; auto; contradiction. }
  destruct r as [|sg r'']; [discriminate Hr|].
  destruct (Ascii.eqb_spec sg "+") as [->|Hplus].
  - apply (Hdigits r''). now apply (occurs_tail "+"%char).
  - destruct (Ascii.eqb_spec sg "-") as [->|Hminus].
    + apply (Hdigits r''). now apply (occurs_tail "-"%char).
    + apply (Hdigits (String sg r'')). exact Hr.
Qed.

Lemma decimal_literal_occurs negative s :
  occurs COLON s = true -> decimal_literal negative s = NaN.
Proof.
  intros H. unfold decimal_literal.
  destruct (String.eqb_spec s "Infinity") as [->|_]; [discriminate H|].
  pose proof (read_digits_occurs s H) as H1.
  destruct (read_digits s) as [int_part r1]. simpl in H1.
  destruct r1 as [|c r]; [discriminate H1|].
  assert (Hfrac : exists frac_part r2,
            (if Ascii.eqb c "." then read_digits r else (Nil, String c r))
            = (frac_part, r2) /\ occurs COLON r2 = true).
  { destruct (Ascii.eqb_spec c ".") as [->|_].
    - pose proof (read_digits_occurs r (occurs_tail "."%char r H1 eq_refl)) as H2.
      destruct (read_digits r) as [f r2]. now exists f, r2.
    - now exists Nil, (String c r). }
  destruct Hfrac as (frac_part & r2 & -> & H2).
  rewrite (read_exponent_occurs r2 H2).
  destruct int_part; destruct frac_part; reflexivity.
Qed.

Lemma read_radix_occurs radix s acc :
  occurs COLON s = true -> read_radix radix s acc = None.
Proof.
  revert acc. induction s as [|c r IH]; [discriminate|]. intros acc H. simpl.
  destruct (Ascii.eqb_spec c COLON) as [->|Hc].
  - unfold radix_digit. reflexivity.
  - apply Ascii.eqb_neq in Hc. pose proof (occurs_tail c r H Hc) as Hr.
    destruct (radix_digit radix c); [now apply IH|reflexivity].
Qed.

Lemma radix_literal_occurs radix s :
  occurs COLON s = true -> radix_literal radix s = NaN.
Proof.
  intros H. unfold radix_literal. rewrite (read_radix_occurs radix s 0 H).
  now destruct s.
Qed.

(** A string with a colon in it is not a number. *)
Lemma to_number_occurs s : occurs COLON s = true -> to_number s = NaN.
Proof.
  intros H. unfold to_number, trim.
  apply occurs_trim_start, occurs_trim_end in H.
  destruct (trim_end (trim_start s)) as [|c r]; [discriminate H|].
  destruct (Ascii.eqb_spec c "+") as [->|_].
  { apply decimal_literal_occurs. now apply (occurs_tail "+"%char). }
  destruct (Ascii.eqb_spec c "-") as [->|_].
  { apply decimal_literal_occurs. now apply (occurs_tail "-"%char). }
  destruct r as [|p digits]; [now apply decimal_literal_occurs|].
  destruct (Ascii.eqb_spec c "0") as [->|_]; [|now apply decimal_literal_occurs].
  cbn [negb].
  pose proof (occurs_tail "0"%char _ H eq_refl) as Hr.
  assert (Hp : forall x, Ascii.eqb x COLON = false -> Ascii.eqb p x = true ->
                         occurs COLON digits = true).
  { intros x Hx Hpx. apply Ascii.eqb_eq in Hpx. subst p.
    now apply (occurs_tail x). }
  destruct (Ascii.eqb p "x") eqn:E1; [apply radix_literal_occurs; now apply (Hp "x"%char)|].
  destruct (Ascii.eqb p "X") eqn:E2; [apply radix_literal_occurs; now apply (Hp "X"%char)|].
  destruct (Ascii.eqb p "o") eqn:E3; [apply radix_literal_occurs; now apply (Hp "o"%char)|].
  destruct (Ascii.eqb p "O") eqn:E4; [apply radix_literal_occurs; now apply (Hp "O"%char)|].
  destruct (Ascii.eqb p "b") eqn:E5; [apply radix_literal_occurs; now apply (Hp "b"%char)|].
  destruct (Ascii.eqb p "B") eqn:E6; [apply radix_literal_occurs; now apply (Hp "B"%char)|].
  now apply decimal_literal_occurs.
Qed.

(** The first [n] characters of a string that has them. *)
Lemma split_at n s :
  (n <= String.length s)%nat ->
  exists a b, s = a +:+ b /\ String.length a = n.
Proof.
  revert s. induction n as [|n IH]; intros s Hn.
  - now exists "", s.
  - destruct s as [|c s]; [simpl in Hn; lia|].
    destruct (IH s) as (a & b & -> & Ha); [simpl in Hn; lia|].
    exists (String c a), b. split; [reflexivity|]. simpl. now rewrite Ha.
Qed.

Lemma strict_equals_count_Qeq k n q :
  Qeq q (inject_Z (Z.of_nat n)) ->
  strict_equals_count k (Finite q) = Nat.eqb k n.
Proof.
  intros Hq. unfold strict_equals_count.
  destruct (Nat.eqb_spec k n) as [->|Hne].
  - apply Qeq_bool_iff. now symmetry.
  - destruct (Qeq_bool (inject_Z (Z.of_nat k)) q) eqn:E; [|reflexivity].
    apply Qeq_bool_iff in E. rewrite Hq in E.
    unfold Qeq, inject_Z in E. simpl in E. lia.
Qed.

(** ** The decoder at the edges of the framing *)

Section DecoderEdges.

Variable JSON_parse : string -> option value.
Variable JSON_stringify : value -> string.
Variable notificationListeners : gmap string (value -> run unit).
Variable requestListeners : gmap string (value -> run ClientResponse).
Variable responseListeners : gmap string (value -> value -> run bool).

Abbreviation interpret :=
  (interpretMessage JSON_stringify notificationListeners requestListeners
     responseListeners).
Abbreviation receive :=
  (onMessageReceived JSON_parse JSON_stringify notificationListeners
     requestListeners responseListeners).
Abbreviation feed_all :=
  (feed JSON_parse JSON_stringify notificationListeners requestListeners
     responseListeners).

(** The body of a frame whose expected length is any number equal to the
    count of its characters. *)
Lemma scan_body_Qeq body rest d s n q :
  msgStage d = BODY ->
  awaitLength d = Finite q -> Qeq q (inject_Z (Z.of_nat n)) ->
  body <> "" ->
  (readLength d + String.length body)%nat = n ->
  receive (body +:+ rest) d s =
  match JSON_parse (received d +:+ body) with
  | Some obj =>
      receive rest {| msgStage := HEADER; received := "";
                      awaitLength := Finite q; readLength := 0 |} (interpret obj s)
  | None =>
      Thrown {| msgStage := HEADER; received := received d +:+ body;
                awaitLength := Finite q; readLength := 0 |} s
  end.
Proof.
  intros Hd Ha Hq. revert d Hd Ha.
  induction body as [|c body IH]; intros d Hd Ha Hne Hlen; [congruence|].
  rewrite append_cons. simpl. rewrite Hd, Ha, (strict_equals_count_Qeq _ n) by exact Hq.
  destruct body as [|c' body].
  - simpl in Hlen. replace (S (readLength d) =? n)%nat with true
      by (symmetry; apply Nat.eqb_eq; lia).
    rewrite append_nil_l. reflexivity.
  - replace (S (readLength d) =? n)%nat with false
      by (symmetry; apply Nat.eqb_neq; simpl in Hlen; lia).
    rewrite IH; simpl; auto; try congruence.
    + now rewrite append_assoc.
    + simpl in Hlen. lia.
Qed.

(** After a line that was kept in the buffer, the length is read from what
    the buffer and the next line make together. *)
Lemma stale_buffer_length stale n :
  (2 <= String.length stale)%nat ->
  to_number
    (substring (stale +:+ "Content-Length: " +:+ length_to_string n +:+ String CR "")
       contentLength
       (Z.of_nat (String.length
                    (stale +:+ "Content-Length: " +:+ length_to_string n
                       +:+ String CR "")) - 1))
  = NaN.
Proof.
  intros Hstale.
  destruct (split_at 16 (stale +:+ "Content-Length")) as (a & b & Hab & Ha).
  { rewrite length_append. simpl. lia. }
  replace (stale +:+ "Content-Length: " +:+ length_to_string n +:+ String CR "")
    with (a +:+ (b +:+ String COLON (" " +:+ length_to_string n)) +:+ String CR "").
  2:{ rewrite <- !append_assoc, <- Hab, !append_assoc. reflexivity. }
  unfold contentLength. change (String.length "Content-Length: ") with 16%nat.
  rewrite <- Ha, substring_middle.
  apply to_number_occurs, occurs_append_r. reflexivity.
Qed.

(** X5. No recovery from a decode error: when a body of two characters or
    more has failed to parse, the buffer it is left in spoils the next
    header line, whose length reads as NaN; that frame and everything after
    it, in whatever chunks, is taken in without any payload being
    dispatched, without any report and without any further error. *)
Theorem X5_no_recovery (bad body rest : string) (chunks : list string)
    (d : decoder) (s : session) :
  idle d ->
  (2 <= String.length bad)%nat ->
  JSON_parse bad = None ->
  flatten chunks = frame body +:+ rest ->
  exists failed,
    receive (frame bad) d s = Thrown failed s /\
    exists d',
      feed_all chunks failed s = Returned d' s /\
      msgStage d' <> HEADER /\ awaitLength d' = NaN.
Proof.
  intros Hd Hbad Hparse Hchunks.
  assert (Hne : bad <> "") by (destruct bad; [simpl in Hbad; lia|discriminate]).
  eexists. split.
  { rewrite <- (append_nil_r (frame bad)), receive_frame, Hparse by assumption.
    reflexivity. }
  apply feed_flatten_ex
    with (Q := fun d' => msgStage d' <> HEADER /\ awaitLength d' = NaN).
  rewrite Hchunks. unfold frame, CRLF.
  replace (("Content-Length: " +:+ length_to_string (String.length body)
              +:+ String CR (String LF "") +:+ String CR (String LF "") +:+ body)
             +:+ rest)
    with (("Content-Length: " +:+ length_to_string (String.length body) +:+ String CR "")
            +:+ String LF (String CR (String LF (body +:+ rest))))
    by (now rewrite !append_assoc).
  rewrite scan_header; [|apply no_LF_append; [reflexivity|];
                          apply no_LF_append; [apply no_LF_length_to_string|reflexivity]
                        |reflexivity].
  cbn [onMessageReceived msgStage received awaitLength readLength].
  change (Ascii.eqb LF LF) with true. cbv iota.
  rewrite stale_buffer_length by assumption.
  apply onMessageReceived_NaN; simpl; [discriminate|reflexivity].
Qed.

Lemma unlines_cons l lines rest :
  unlines (l :: lines) +:+ rest = l +:+ String LF (unlines lines +:+ rest).
Proof. unfold unlines. simpl. now rewrite !append_assoc. Qed.

Lemma skip_lines lines rest a s :
  skipped_lines lines = true ->
  receive (unlines lines +:+ rest)
    {| msgStage := HEADER_END; received := ""; awaitLength := a; readLength := 0 |} s =
  receive rest
    {| msgStage := HEADER_END; received := ""; awaitLength := a; readLength := 0 |} s.
Proof.
  induction lines as [|l lines IH]; intros H; [reflexivity|].
  simpl in H. apply andb_prop in H as [H Hlines]. apply andb_prop in H as [Hl Hlen].
  rewrite unlines_cons, scan_header_end by auto.
  cbn [onMessageReceived msgStage received awaitLength readLength].
  change (Ascii.eqb LF LF) with true. cbv iota. rewrite append_nil_l.
  apply negb_true_iff in Hlen. rewrite Hlen. now apply IH.
Qed.

(** X6. Header lines between the Content-Length line and the blank line
    are ignored: with any number of them, each ending in a line feed and not
    one character long before it, the frame is decoded exactly as without
    them. *)
Theorem X6_other_headers_ignored (lines : list string) (body rest : string)
    (d : decoder) (s : session) :
  idle d ->
  skipped_lines lines = true ->
  receive ("Content-Length: " +:+ length_to_string (String.length body) +:+ CRLF
             +:+ unlines lines +:+ CRLF +:+ body +:+ rest) d s
  = receive (frame body +:+ rest) d s.
Proof.
  intros Hd Hlines. unfold frame. rewrite !append_assoc.
  rewrite !receive_length_line by assumption. now apply skip_lines.
Qed.

(** X7. What the decoder asks of a header: the first line may say anything,
    as long as its slice from the 17th character to the last but one
    converts to the number of characters of the body, and the blank line may
    hold any one character before its line feed. *)
Theorem X7_lenient_header (line body rest : string) (c : ascii) (q : Q)
    (d : decoder) (s : session) :
  idle d ->
  no_LF line = true ->
  to_number (substring line contentLength (Z.of_nat (String.length line) - 1))
    = Finite q ->
  Qeq q (inject_Z (Z.of_nat (String.length body))) ->
  c <> LF ->
  body <> "" ->
  receive (line +:+ String LF (String c (String LF (body +:+ rest)))) d s
  = match JSON_parse body with
    | Some obj =>
        receive rest {| msgStage := HEADER; received := "";
                        awaitLength := Finite q; readLength := 0 |} (interpret obj s)
    | None =>
        Thrown {| msgStage := HEADER; received := body;
                  awaitLength := Finite q; readLength := 0 |} s
    end.
Proof.
  intros Hd Hline Hnum Hq Hc Hne.
  rewrite receive_first_line, Hnum by assumption.
  rewrite receive_blank_line by (now apply Ascii.eqb_neq).
  now rewrite scan_body_Qeq with (n := String.length body) (q := q).
Qed.

(** X8. A frame that announces an empty body is never completed: the
    counter is past 0 at the first character that follows, so the decoder
    takes everything after the header as body, dispatches nothing and raises
    nothing. *)
Theorem X8_empty_body_stalls (rest : string) (chunks : list string)
    (d : decoder) (s : session) :
  idle d ->
  flatten chunks = frame "" +:+ rest ->
  feed_all chunks d s
  = Returned {| msgStage := BODY; received := rest;
                awaitLength := Finite (inject_Z 0);
                readLength := String.length rest |} s.
Proof.
  intros Hd Hchunks. apply feed_flatten. rewrite Hchunks. unfold frame.
  rewrite !append_assoc, receive_length_line by assumption.
  unfold CRLF. rewrite append_cons, append_cons, !append_nil_l.
  rewrite receive_blank_line by reflexivity.
  now rewrite scan_body_overshoot with (n := 0%nat).
Qed.

End DecoderEdges.

(** ** Chunks after a decode error *)

Section DecoderAfterError.

Variable JSON_parse : string -> option value.
Variable JSON_stringify : value -> string.
Variable notificationListeners : gmap string (value -> run unit).
Variable requestListeners : gmap string (value -> run ClientResponse).
Variable responseListeners : gmap string (value -> value -> run bool).

Abbreviation receive :=
  (onMessageReceived JSON_parse JSON_stringify notificationListeners
     requestListeners responseListeners).
Abbreviation feed_all :=
  (feed JSON_parse JSON_stringify notificationListeners requestListeners
     responseListeners).

(** A frame read on top of a buffer that was not cleared. *)
Lemma stale_frame stale a body rest s :
  (2 <= String.length stale)%nat ->
  exists d',
    receive (frame body +:+ rest)
      {| msgStage := HEADER; received := stale; awaitLength := a; readLength := 0 |} s
    = Returned d' s /\
    msgStage d' <> HEADER /\ awaitLength d' = NaN.
Proof.
  intros Hstale. unfold frame, CRLF.
  replace (("Content-Length: " +:+ length_to_string (String.length body)
              +:+ String CR (String LF "") +:+ String CR (String LF "") +:+ body)
             +:+ rest)
    with (("Content-Length: " +:+ length_to_string (String.length body) +:+ String CR "")
            +:+ String LF (String CR (String LF (body +:+ rest))))
    by (now rewrite !append_assoc).
  rewrite scan_header; [|apply no_LF_append; [reflexivity|];
                          apply no_LF_append; [apply no_LF_length_to_string|reflexivity]
                        |reflexivity].
  cbn [onMessageReceived msgStage received awaitLength readLength].
  change (Ascii.eqb LF LF) with true. cbv iota.
  rewrite stale_buffer_length by assumption.
  apply onMessageReceived_NaN; simpl; [discriminate|reflexivity].
Qed.

(** X16. After a decode error chunk boundaries do matter.  A frame that
    follows the failed one in the same chunk is never looked at, and the
    decoder is left in the HEADER stage with the failed body in its buffer;
    the same frame arriving in a chunk of its own is read on top of that
    buffer, its length is NaN, and the decoder is left outside the HEADER
    stage.  In both cases nothing is dispatched. *)
Theorem X16_chunking_after_error (bad body : string) (d : decoder) (s : session) :
  idle d ->
  (2 <= String.length bad)%nat ->
  JSON_parse bad = None ->
  feed_all [frame bad +:+ frame body] d s
  = Thrown {| msgStage := HEADER; received := bad;
              awaitLength := Finite (inject_Z (Z.of_nat (String.length bad)));
              readLength := 0 |} s /\
  exists d',
    feed_all [frame bad; frame body] d s = Thrown d' s /\
    msgStage d' <> HEADER /\ awaitLength d' = NaN.
Proof.
  intros Hd Hbad Hparse.
  assert (Hne : bad <> "") by (destruct bad; [simpl in Hbad; lia|discriminate]).
  split.
  - cbn [feed]. now rewrite receive_frame, Hparse.
  - cbn [feed]. rewrite <- (append_nil_r (frame bad)), receive_frame, Hparse
      by assumption.
    destruct (stale_frame bad
                (Finite (inject_Z (Z.of_nat (String.length bad)))) body "" s Hbad)
      as (d' & Hrun & Hstage & Hnan).
    rewrite append_nil_r in Hrun. rewrite Hrun. now exists d'.
Qed.

End DecoderAfterError.

(** ** More about the dispatcher and the ledger *)

Section LedgerBehaviour.

Variable JSON_parse : string -> option value.
Variable JSON_stringify : value -> string.
Variable notificationListeners : gmap string (value -> run unit).
Variable requestListeners : gmap string (value -> run ClientResponse).
Variable responseListeners : gmap string (value -> value -> run bool).

Abbreviation interpret :=
  (interpretMessage JSON_stringify notificationListeners requestListeners
     responseListeners).
Abbreviation receive :=
  (onMessageReceived JSON_parse JSON_stringify notificationListeners
     requestListeners responseListeners).
Abbreviation perform_sends := (perform_all JSON_stringify).

(** A property of sessions that the encoders, the events that are not
    writes and the removal of an entry keep is kept by the dispatcher, by
    the decoder, and holds of every reachable session. *)
Section Preserved.

Variable P : session -> Prop.
Hypothesis P_emit : forall e s, well_framed JSON_stringify e -> P s -> P (emit e s).
Hypothesis P_sendRequest :
  forall uuid method params s,
    P s -> P (sendRequest JSON_stringify uuid method params s).
Hypothesis P_delete :
  forall id s,
    P s -> P {| pendingRequests := map_delete id (pendingRequests s); io := io s |}.

Lemma framed_write msg : well_framed JSON_stringify (Write (frame (JSON_stringify msg))).
Proof. now exists msg. Qed.

Lemma perform_all_preserves l s : P s -> P (perform_sends l s).
Proof.
  revert s. induction l as [|x l IH]; intros s Hs; [exact Hs|].
  rewrite perform_all_cons. apply IH. destruct x; simpl perform.
  - now apply P_sendRequest.
  - apply P_emit; [apply framed_write|exact Hs].
Qed.

Lemma interpretMessage_preserves obj s : P s -> P (interpret obj s).
Proof.
  intros Hs. unfold interpretMessage.
  destruct (has_property "method" obj) as [[]|]; [| |now apply P_emit].
  - destruct (has_property "id" obj) as [[]|]; [| |now apply P_emit].
    + destruct (map_get requestListeners _) as [fn|].
      * destruct (returned _).
        -- apply P_emit; [apply framed_write|].
           apply perform_all_preserves. now apply P_emit.
        -- apply P_emit; [exact I|].
           apply perform_all_preserves. now apply P_emit.
      * apply P_emit; [apply framed_write|exact Hs].
    + destruct (map_get notificationListeners _) as [fn|]; [|exact Hs].
      destruct (returned _).
      * apply perform_all_preserves. now apply P_emit.
      * apply P_emit; [exact I|].
        apply perform_all_preserves. now apply P_emit.
  - assert (Hresp : forall id,
      P match map_get (pendingRequests s) id with
        | Some request =>
            match map_get responseListeners (get request "method") with
            | Some fn =>
                let r := fn request obj in
                let s0 := emit (Invoked ResponseTable (ToString (get request "method"))
                                  [request; obj]) s in
                let s1 := perform_sends (sends r) s0 in
                match returned r with
                | Some shouldRemove =>
                    if shouldRemove
                    then {| pendingRequests := map_delete id (pendingRequests s1);
                            io := io s1 |}
                    else s1
                | None => emit Rejected s1
                end
            | None => s
            end
        | None => emit (ShowErrorMessage "Pending request not found.") s
        end).
    { intros id. destruct (map_get (pendingRequests s) id) as [request|];
        [|now apply P_emit].
      destruct (map_get responseListeners _) as [fn|]; [|exact Hs].
      cbv zeta. destruct (returned _) as [[]|].
      - apply P_delete, perform_all_preserves. now apply P_emit.
      - apply perform_all_preserves. now apply P_emit.
      - apply P_emit; [exact I|]. apply perform_all_preserves. now apply P_emit. }
    destruct (get obj "id"); try apply Hresp.
    apply P_emit; [exact I|]. now apply P_emit.
Qed.

Lemma onMessageReceived_preserves data d s :
  P s ->
  match receive data d s with
  | Returned _ s' | Thrown _ s' => P s'
  end.
Proof.
  revert d s. induction data as [|c data IH]; intros d s Hs; [exact Hs|].
  simpl. destruct (msgStage d).
  - destruct (Ascii.eqb c LF); now apply IH.
  - destruct (Ascii.eqb c LF); [destruct (Nat.eqb _ 1)|]; now apply IH.
  - destruct (strict_equals_count _ _); [|now apply IH].
    destruct (JSON_parse _); [|exact Hs].
    apply IH. now apply interpretMessage_preserves.
Qed.

Lemma reachable_preserves s :
  P initial_session ->
  reachable JSON_parse JSON_stringify notificationListeners requestListeners
    responseListeners s ->
  P s.
Proof.
  intros Hinit. induction 1 as [|s uuid method params _ IH|s method params _ IH
                  |s request result error _ IH|s obj _ IH
                  |s data d d' s' _ IH Hrun|s data d d' s' _ IH Hrun].
  - exact Hinit.
  - now apply P_sendRequest.
  - apply P_emit; [apply framed_write|exact IH].
  - apply P_emit; [apply framed_write|exact IH].
  - now apply interpretMessage_preserves.
  - pose proof (onMessageReceived_preserves data d s IH) as H.
    now rewrite Hrun in H.
  - pose proof (onMessageReceived_preserves data d s IH) as H.
    now rewrite Hrun in H.
Qed.

End Preserved.

(** X9. Traffic does not lose pending calls: whatever payload is
    dispatched, a pending call stays in the ledger unless the payload is a
    response that carries its id. *)
Theorem X9_entries_survive (obj : value) (s : session) (k : string) :
  is_Some (pendingRequests s !! k) ->
  (has_property "method" obj = Some false -> get obj "id" <> VString k) ->
  is_Some (pendingRequests (interpret obj s) !! k).
Proof.
  intros Hk Hid. unfold interpretMessage.
  destruct (has_property "method" obj) as [[]|]; [| |exact Hk].
  - destruct (has_property "id" obj) as [[]|]; [| |exact Hk].
    + destruct (map_get requestListeners _) as [fn|]; [|exact Hk].
      destruct (returned _); now apply perform_all_keeps.
    + destruct (map_get notificationListeners _) as [fn|]; [|exact Hk].
      destruct (returned _); now apply perform_all_keeps.
  - specialize (Hid eq_refl).
    destruct (get obj "id") as [| | | |X| |]; try exact Hk.
    cbn [map_get]. destruct (pendingRequests s !! X) as [request|]; [|exact Hk].
    destruct (map_get responseListeners _) as [fn|]; [|exact Hk].
    cbv zeta. destruct (returned _) as [[]|]; try now apply perform_all_keeps.
    cbn [pendingRequests map_delete]. rewrite lookup_delete_ne by congruence.
    now apply perform_all_keeps.
Qed.

(** X10. A response is consumed once: when the listener of a pending call
    returns true, the call has left the ledger, and the same response
    arriving again is reported as "Pending request not found." without any
    listener being called. *)
Theorem X10_response_consumed (response request : value) (X m : string)
    (fn : value -> value -> run bool) (l : list send) (s : session) :
  has_property "method" response = Some false ->
  get response "id" = VString X ->
  pendingRequests s !! X = Some request ->
  get request "method" = VString m ->
  responseListeners !! m = Some fn ->
  fn request response = {| sends := l; returned := Some true |} ->
  let once := interpret response s in
  pendingRequests once !! X = None /\
  interpret response once
    = emit (ShowErrorMessage "Pending request not found.") once.
Proof.
  intros Hmethod Hid Hreq Hm Hfn Hrun once.
  assert (Hgone : pendingRequests once !! X = None).
  { subst once. unfold interpretMessage. rewrite Hmethod, Hid. cbn [map_get].
    rewrite Hreq, Hm. cbn [map_get]. rewrite Hfn, Hrun. cbn [sends returned].
    cbn [pendingRequests map_delete]. apply lookup_delete_eq. }
  split; [exact Hgone|].
  apply interpretMessage_unknown_id; rewrite ?Hid; auto; discriminate.
Qed.

(** X11. Everything the client writes is a frame: in every reachable
    session, each written event is the Content-Length header, the blank
    line and the serialization of one message. *)
Theorem X11_writes_are_frames (s : session) :
  reachable JSON_parse JSON_stringify notificationListeners requestListeners
    responseListeners s ->
  all_framed JSON_stringify s.
Proof.
  apply (reachable_preserves (all_framed JSON_stringify)).
  - intros e s0 He H0. unfold all_framed. simpl. apply Forall_app. split; auto.
  - intros uuid method params s0 H0. unfold all_framed. simpl.
    apply Forall_app. split; [exact H0|]. constructor; [apply framed_write|constructor].
  - intros id s0 H0. exact H0.
  - constructor.
Qed.

(** With the server spawned, [sendRequest_on] is [sendRequest]. *)
Lemma sendRequest_on_spawned uuid method params s :
  sendRequest_on true JSON_stringify uuid method params s
  = sendRequest JSON_stringify uuid method params s.
Proof. reflexivity. Qed.

(** X12. Every pending call is accounted for: however the client got to
    where it is, each request in the ledger has had its frame written to
    the server, unless it is the [shutdown] request of a [deactivate] that
    found no server spawned, whose write was rejected; and as long as no
    server is spawned nothing at all is written. *)
Theorem X12_pending_were_written (x : extension) :
  extension_reachable JSON_parse JSON_stringify notificationListeners
    requestListeners responseListeners x ->
  all_accounted JSON_stringify (transport x) /\
  (fserver x = false -> forall data, ~ In (Write data) (io (transport x))).
Proof.
  assert (Hemit : forall e s,
            all_accounted JSON_stringify s -> all_accounted JSON_stringify (emit e s)).
  { intros e s0 H0 k msg Hk. destruct (H0 k msg Hk) as [H|[-> H]].
    - left. simpl. apply in_or_app. now left.
    - right. split; [reflexivity|]. simpl. apply in_or_app. now left. }
  assert (Hsend : forall uuid method params s,
            all_accounted JSON_stringify s ->
            all_accounted JSON_stringify (sendRequest JSON_stringify uuid method params s)).
  { intros uuid method params s0 H0 k msg. simpl.
    destruct (decide (uuid = k)) as [->|Hne].
    - rewrite lookup_insert_eq. intros [= <-]. left. apply in_or_app. right. now left.
    - rewrite lookup_insert_ne by exact Hne. intros Hk.
      destruct (H0 k msg Hk) as [H|[-> H]].
      + left. apply in_or_app. now left.
      + right. split; [reflexivity|]. apply in_or_app. now left. }
  induction 1 as [|x path pid workspaceFolders uuid _ [IH Hnone]
                  |x uuid _ [IH Hnone]|x data d _ [IH _] Hspawned
                  |x method params _ [IH _] Hspawned].
  - split.
    + intros k msg. simpl. now rewrite lookup_empty.
    + intros _ data [].
  - destruct path as [path|]; simpl.
    + split; [now apply Hsend|discriminate].
    + split; [now apply Hemit|]. intros Hf data Hin.
      apply in_app_or in Hin as [Hin|[Hin|[]]]; [|discriminate Hin].
      now apply (Hnone Hf data).
  - unfold deactivate_extension. simpl. destruct (fserver x) eqn:Hf.
    + split; [now apply Hsend|discriminate].
    + split.
      * intros k msg. unfold sendRequest_on, stdin_write. simpl.
        destruct (decide (uuid = k)) as [->|Hne].
        -- rewrite lookup_insert_eq. intros [= <-]. right.
           split; [reflexivity|]. apply in_or_app. right. now left.
        -- rewrite lookup_insert_ne by exact Hne. intros Hk.
           destruct (IH k msg Hk) as [H|[-> H]].
           ++ left. apply in_or_app. now left.
           ++ right. split; [reflexivity|]. apply in_or_app. now left.
      * intros _ data Hin. unfold sendRequest_on, stdin_write in Hin. simpl in Hin.
        apply in_app_or in Hin as [Hin|[Hin|[]]]; [|discriminate Hin].
        now apply (Hnone eq_refl data).
  - split; [|discriminate]. cbn [transport].
    pose proof (onMessageReceived_preserves (all_accounted JSON_stringify)
                  (fun e s _ => Hemit e s) Hsend) as Hdata.
    specialize (fun Hdel => Hdata Hdel data d (transport x) IH).
    destruct (receive data d (transport x)); apply Hdata;
      intros id s0 H0 k msg; simpl; destruct id; simpl; try apply H0;
      intros Hk; apply lookup_delete_Some in Hk as [_ Hk]; now apply (H0 k).
  - split; [|discriminate]. cbn [transport]. now apply Hemit.
Qed.

End LedgerBehaviour.

(** ** The client's two exchanges with the server *)

Section Handshakes.

Variable JSON_parse : string -> option value.
Variable JSON_stringify : value -> string.
Variable notificationListeners : gmap string (value -> run unit).
Variable requestListeners : gmap string (value -> run ClientResponse).

Abbreviation client_interpret :=
  (interpretMessage JSON_stringify notificationListeners requestListeners
     Client.responseListeners).
Abbreviation client_feed :=
  (feed JSON_parse JSON_stringify notificationListeners requestListeners
     Client.responseListeners).
Abbreviation written msg := (Write (frame (JSON_stringify msg))).

(** X13. Shutdown: after [deactivate], whatever response comes back under
    the id of the [shutdown] request, a result or an error, in whatever
    chunks, the client writes the [exit] notification and the request
    leaves the ledger. *)
Theorem X13_shutdown_handshake (uuid body : string) (response : value)
    (chunks : list string) (d : decoder) (s : session) :
  idle d -> body <> "" ->
  JSON_parse body = Some response ->
  has_property "method" response = Some false ->
  get response "id" = VString uuid ->
  flatten chunks = frame body ->
  client_feed chunks d (deactivate JSON_stringify uuid s)
  = Returned (after_frame (String.length body))
      {| pendingRequests := delete uuid (pendingRequests s);
         io := io s ++
               [written (RequestMessage uuid "shutdown" VUndefined);
                Invoked ResponseTable "shutdown"
                  [RequestMessage uuid "shutdown" VUndefined; response];
                written (NotificationMessage "exit" (VObject []))] |}.
Proof.
  intros Hd Hne Hparse Hmethod Hid Hchunks.
  apply feed_flatten. rewrite Hchunks, <- (append_nil_r (frame body)).
  rewrite receive_frame, Hparse by assumption.
  cbn [onMessageReceived]. f_equal.
  unfold interpretMessage. rewrite Hmethod, Hid. unfold deactivate.
  cbn [map_get sendRequest pendingRequests emit io]. rewrite lookup_insert_eq.
  change (get (RequestMessage uuid "shutdown" VUndefined) "method")
    with (VString "shutdown").
  cbn [map_get ToString].
  change (Client.responseListeners !! "shutdown") with (Some Client.onShutdownResponse).
  cbv zeta. cbn [Client.onShutdownResponse sends returned].
  cbn [perform_all fold_left perform sendNotification emit pendingRequests io map_delete].
  unfold sendRequest. cbn [pendingRequests io emit].
  rewrite delete_insert_eq, <- !app_assoc. reflexivity.
Qed.

(** X14. Initialize: after [activate] with a configured path, the response
    under the id of the [initialize] request is handled in one of three
    ways.  With a falsy result (an error response has none) the request
    leaves the ledger and nothing is written.  With a truthy result whose
    [capabilities] are undefined or null the listener raises: nothing is
    written and the request stays pending.  Otherwise the client writes the
    [initialized] notification and the request leaves the ledger. *)
Theorem X14_initialize_handshake (path uuid : string) (pid : Z)
    (workspaceFolders : option (list (string * string)))
    (response : value) (s : session) :
  has_property "method" response = Some false ->
  get response "id" = VString uuid ->
  let request := RequestMessage uuid "initialize" (initializeParams pid workspaceFolders) in
  let sent := activate JSON_stringify (Some path) pid workspaceFolders uuid s in
  let after := client_interpret response sent in
  let called := Invoked ResponseTable "initialize" [request; response] in
  let result := get response "result" in
  io sent = io s ++ [written request] /\
  (Client.truthy result = false ->
   pendingRequests after = delete uuid (pendingRequests s) /\
   io after = io sent ++ [called]) /\
  (Client.truthy result = true -> nullish (get result "capabilities") = true ->
   pendingRequests after !! uuid = Some request /\
   io after = io sent ++ [called; Rejected]) /\
  (Client.truthy result = true -> nullish (get result "capabilities") = false ->
   pendingRequests after = delete uuid (pendingRequests s) /\
   io after = io sent ++ [called; written (NotificationMessage "initialized" (VObject []))]).
Proof.
  intros Hmethod Hid request sent after called result.
  split; [reflexivity|].
  assert (Hafter : after =
    let r := Client.onInitializeResponse request response in
    let s1 := perform_all JSON_stringify (sends r) (emit called sent) in
    match returned r with
    | Some shouldRemove =>
        if shouldRemove
        then {| pendingRequests := map_delete (VString uuid) (pendingRequests s1);
                io := io s1 |}
        else s1
    | None => emit Rejected s1
    end).
  { subst after. unfold interpretMessage. rewrite Hmethod, Hid.
    subst sent. unfold activate.
    cbn [map_get sendRequest pendingRequests emit io]. rewrite lookup_insert_eq.
    reflexivity. }
  rewrite Hafter. clear Hafter. cbv zeta. unfold Client.onInitializeResponse.
  fold result.
  split; [intros Ht|split; intros Ht Hn]; rewrite Ht.
  - split; [apply delete_insert_eq|reflexivity].
  - destruct (get result "capabilities"); try discriminate Hn;
      (split; [apply lookup_insert_eq|simpl; now rewrite <- app_assoc]).
  - destruct (get result "capabilities"); try discriminate Hn;
      (split; [apply delete_insert_eq|simpl; now rewrite <- !app_assoc]).
Qed.

End Handshakes.

(** ** Requests that are answered *)

Section Answers.

Variable JSON_stringify : value -> string.
Variable notificationListeners : gmap string (value -> run unit).
Variable requestListeners : gmap string (value -> run ClientResponse).
Variable responseListeners : gmap string (value -> value -> run bool).

Abbreviation interpret :=
  (interpretMessage JSON_stringify notificationListeners requestListeners
     responseListeners).

Lemma perform_all_io l s :
  io (perform_all JSON_stringify l s) = io s ++ writes_of JSON_stringify l.
Proof.
  revert s. induction l as [|x l IH]; intros s.
  - simpl. now rewrite app_nil_r.
  - rewrite perform_all_cons, IH. destruct x; simpl; now rewrite <- app_assoc.
Qed.

(** X15. A request whose listener returns is answered once: the listener
    is called with the request's parameters, what it sends is written
    first, and then one response goes out, under the request's id, with the
    result and the error exactly as the listener returned them. *)
Theorem X15_request_answered (obj : value) (m : string)
    (fn : value -> run ClientResponse) (l : list send) (answer : ClientResponse)
    (s : session) :
  has_property "method" obj = Some true ->
  has_property "id" obj = Some true ->
  get obj "method" = VString m ->
  requestListeners !! m = Some fn ->
  fn (get obj "params") = {| sends := l; returned := Some answer |} ->
  io (interpret obj s)
  = io s ++ [Invoked RequestTable m [get obj "params"]]
      ++ writes_of JSON_stringify l
      ++ [Write (frame (JSON_stringify
                          (ResponseMessage (get obj "id") (result answer)
                             (error answer))))].
Proof.
  intros Hmethod Hid Hm Hfn Hrun. unfold interpretMessage.
  rewrite Hmethod, Hid, Hm. cbn [map_get ToString]. rewrite Hfn, Hrun.
  cbn [sends returned]. rewrite sendResponse_writes, perform_all_io.
  simpl. now rewrite <- !app_assoc.
Qed.

End Answers.

(** ** These properties at work *)

Section MoreExamples.

Abbreviation scenario_interpret :=
  (interpretMessage Client.stringify Client.notificationListeners
     Scenario.requestListeners Client.responseListeners).
Abbreviation scenario_receive :=
  (onMessageReceived Scenario.JSON_parse Client.stringify
     Client.notificationListeners Scenario.requestListeners
     Client.responseListeners).
Abbreviation scenario_feed :=
  (feed Scenario.JSON_parse Client.stringify Client.notificationListeners
     Scenario.requestListeners Client.responseListeners).
Abbreviation text := Client.stringify.

(** Two frames in four chunks, and the same two frames in one. *)
Lemma X1_chunking_irrelevant_witness :
  scenario_feed
    [frames [text Client.initialize_result; text Client.exit_notification]]
    initial_decoder initial_session
  = Returned (after_frame (String.length (text Client.exit_notification)))
      (scenario_interpret Client.exit_notification
         (scenario_interpret Client.initialize_result initial_session)).
Proof.
  apply (X1_chunking_irrelevant Scenario.JSON_parse Client.stringify
           Client.notificationListeners Scenario.requestListeners
           Client.responseListeners
           (Client.chunks_of [7; 40; 41]%nat
              (frames [text Client.initialize_result; text Client.exit_notification]))).
  - vm_compute. reflexivity.
  - vm_compute. reflexivity.
Defined.

(** Three frames in five chunks. *)
Lemma X2_frames_in_order_witness :
  exists d',
    scenario_feed
      (Client.chunks_of [3; 30; 60; 2]%nat
         (frames [text Client.exit_notification; text Client.configuration_request;
                  text Client.logTrace_notification]))
      initial_decoder initial_session
    = Returned d'
        (scenario_interpret Client.logTrace_notification
           (scenario_interpret Client.configuration_request
              (scenario_interpret Client.exit_notification initial_session))) /\
    idle d'.
Proof.
  apply (X2_frames_in_order Scenario.JSON_parse Client.stringify
           Client.notificationListeners Scenario.requestListeners
           Client.responseListeners
           [text Client.exit_notification; text Client.configuration_request;
            text Client.logTrace_notification]
           [Client.exit_notification; Client.configuration_request;
            Client.logTrace_notification]).
  - repeat split.
  - repeat constructor; vm_compute; discriminate.
  - vm_compute. reflexivity.
Defined.

(** The frame of an [initialize] result, cut after ten characters of its
    body. *)
Lemma X3_body_resumed_witness :
  let part := String.substring 0 10 (text Client.initialize_result) in
  let missing := String.substring 10 100 (text Client.initialize_result) in
  let waiting :=
    {| msgStage := BODY; received := part;
       awaitLength := Finite (inject_Z 41); readLength := 10 |} in
  scenario_receive ("Content-Length: 41" +:+ CRLF +:+ CRLF +:+ part)
    initial_decoder initial_session
    = Returned waiting initial_session /\
  scenario_receive missing waiting initial_session
    = Returned (after_frame 41)
        (scenario_interpret Client.initialize_result initial_session).
Proof.
  intros part missing waiting.
  assert (Hidle : idle initial_decoder) by (repeat split).
  assert (Hmissing : missing <> "") by (vm_compute; discriminate).
  assert (Hparse : Scenario.JSON_parse (part +:+ missing)
                   = Some Client.initialize_result) by (vm_compute; reflexivity).
  exact (X3_body_resumed Scenario.JSON_parse Client.stringify
           Client.notificationListeners Scenario.requestListeners
           Client.responseListeners part missing Client.initialize_result
           initial_decoder initial_session Hidle Hmissing Hparse).
Defined.

(** A body that is not JSON, followed by a good frame in the same chunk. *)
Lemma X4_decode_error_witness :
  scenario_receive (frame Scenario.garbage +:+ frame (text Client.exit_notification))
    initial_decoder initial_session
  = Thrown {| msgStage := HEADER; received := Scenario.garbage;
              awaitLength := Finite (inject_Z 5); readLength := 0 |}
      initial_session.
Proof.
  apply (X4_decode_error Scenario.JSON_parse Client.stringify
           Client.notificationListeners Scenario.requestListeners
           Client.responseListeners Scenario.garbage
           (frame (text Client.exit_notification)) initial_decoder initial_session).
  - repeat split.
  - discriminate.
  - reflexivity.
Defined.

(** After that body, a good frame in a later chunk is not dispatched. *)
Lemma X5_no_recovery_witness :
  exists failed,
    scenario_receive (frame Scenario.garbage) initial_decoder initial_session
      = Thrown failed initial_session /\
    exists d',
      scenario_feed [frame (text Client.exit_notification)] failed initial_session
        = Returned d' initial_session /\
      msgStage d' <> HEADER /\ awaitLength d' = NaN.
Proof.
  apply (X5_no_recovery Scenario.JSON_parse Client.stringify
           Client.notificationListeners Scenario.requestListeners
           Client.responseListeners Scenario.garbage
           (text Client.exit_notification) "").
  - repeat split.
  - simpl. lia.
  - reflexivity.
  - vm_compute. reflexivity.
Defined.

(** A frame with a Content-Type line after the Content-Length line. *)
Lemma X6_other_headers_ignored_witness :
  scenario_receive
    ("Content-Length: 41" +:+ CRLF
       +:+ unlines [Scenario.content_type_line] +:+ CRLF
       +:+ text Client.initialize_result +:+ "")
    initial_decoder initial_session
  = scenario_receive (frame (text Client.initialize_result) +:+ "")
      initial_decoder initial_session.
Proof.
  apply (X6_other_headers_ignored Scenario.JSON_parse Client.stringify
           Client.notificationListeners Scenario.requestListeners
           Client.responseListeners [Scenario.content_type_line]
           (text Client.initialize_result) "" initial_decoder initial_session).
  - repeat split.
  - reflexivity.
Defined.

(** A first line of another name with the length in hexadecimal, and a
    blank line that holds an [x]. *)
Lemma X7_lenient_header_witness :
  scenario_receive
    (Scenario.odd_length_line
       +:+ String LF (String "x" (String LF (text (VObject []) +:+ ""))))
    initial_decoder initial_session
  = Returned {| msgStage := HEADER; received := "";
                awaitLength := Finite (inject_Z 2); readLength := 0 |}
      (scenario_interpret (VObject []) initial_session).
Proof.
  apply (X7_lenient_header Scenario.JSON_parse Client.stringify
           Client.notificationListeners Scenario.requestListeners
           Client.responseListeners Scenario.odd_length_line
           (text (VObject [])) "" "x"%char (inject_Z 2)
           initial_decoder initial_session).
  - repeat split.
  - reflexivity.
  - reflexivity.
  - reflexivity.
  - discriminate.
  - discriminate.
Defined.

(** A frame with an empty body, followed by a good frame. *)
Lemma X8_empty_body_stalls_witness :
  scenario_feed [frame "" +:+ frame (text (VObject []))]
    initial_decoder initial_session
  = Returned {| msgStage := BODY; received := frame (text (VObject []));
                awaitLength := Finite (inject_Z 0);
                readLength := String.length (frame (text (VObject []))) |}
      initial_session.
Proof.
  apply (X8_empty_body_stalls Scenario.JSON_parse Client.stringify
           Client.notificationListeners Scenario.requestListeners
           Client.responseListeners (frame (text (VObject [])))).
  - repeat split.
  - vm_compute. reflexivity.
Defined.

(** The pending [initialize] request outlives a response under another
    id. *)
Lemma X9_entries_survive_witness :
  is_Some
    (pendingRequests
       (scenario_interpret Client.response_with_unknown_id
          (sendRequest text "abc" "initialize" (VObject []) initial_session))
     !! "abc").
Proof.
  apply (X9_entries_survive Client.stringify Client.notificationListeners
           Scenario.requestListeners Client.responseListeners
           Client.response_with_unknown_id).
  - simpl. rewrite lookup_insert_eq. eauto.
  - intros _. discriminate.
Defined.

(** The [initialize] result arrives twice. *)
Lemma X10_response_consumed_witness :
  let once :=
    scenario_interpret Client.initialize_result
      (sendRequest text "abc" "initialize" (VObject []) initial_session) in
  pendingRequests once !! "abc" = None /\
  scenario_interpret Client.initialize_result once
    = emit (ShowErrorMessage "Pending request not found.") once.
Proof.
  apply (X10_response_consumed Client.stringify Client.notificationListeners
           Scenario.requestListeners Client.responseListeners
           Client.initialize_result Client.initialize_request "abc" "initialize"
           Client.onInitializeResponse
           [SendNotification "initialized" (VObject [])]);
    reflexivity.
Defined.

(** A session with an answered request and two requests of its own. *)
Lemma X11_writes_are_frames_witness :
  all_framed text
    (sendRequest text "def" "shutdown" VUndefined
       (scenario_interpret Client.configuration_request
          (sendRequest text "abc" "initialize" (VObject []) initial_session))).
Proof.
  apply (X11_writes_are_frames Scenario.JSON_parse Client.stringify
           Client.notificationListeners Scenario.requestListeners
           Client.responseListeners).
  apply reachable_sendRequest, reachable_interpretMessage, reachable_sendRequest.
  apply reachable_initial.
Defined.

(** [deactivate] before any server is spawned, then [activate]. *)
Lemma X12_pending_were_written_witness :
  let x :=
    activate_extension text (Some "fmodsilo_interface_stdio") 4242 None "abc"
      (deactivate_extension text "def" initial_extension) in
  all_accounted text (transport x) /\
  io (transport (deactivate_extension text "def" initial_extension)) = [Rejected].
Proof.
  intros x. split; [|reflexivity].
  apply (X12_pending_were_written Scenario.JSON_parse Client.stringify
           Client.notificationListeners Scenario.requestListeners
           Client.responseListeners x).
  apply extension_activate, extension_deactivate, extension_initial.
Defined.

(** The server answers the [shutdown] request with an error. *)
Lemma X13_shutdown_handshake_witness :
  scenario_feed
    (Client.chunks_of [20; 30]%nat (frame (text Scenario.shutdown_error_response)))
    initial_decoder (deactivate text "def" initial_session)
  = Returned (after_frame (String.length (text Scenario.shutdown_error_response)))
      {| pendingRequests := delete "def" (pendingRequests initial_session);
         io := io initial_session ++
               [Write (frame (text (RequestMessage "def" "shutdown" VUndefined)));
                Invoked ResponseTable "shutdown"
                  [RequestMessage "def" "shutdown" VUndefined;
                   Scenario.shutdown_error_response];
                Write (frame (text (NotificationMessage "exit" (VObject []))))] |}.
Proof.
  apply (X13_shutdown_handshake Scenario.JSON_parse Client.stringify
           Client.notificationListeners Scenario.requestListeners
           "def" (text Scenario.shutdown_error_response)
           Scenario.shutdown_error_response).
  - repeat split.
  - vm_compute. discriminate.
  - vm_compute. reflexivity.
  - reflexivity.
  - reflexivity.
  - vm_compute. reflexivity.
Defined.

(** The server answers the [initialize] request with an empty result: the
    listener raises and the request stays pending. *)
Lemma X14_initialize_handshake_witness :
  let sent :=
    activate text (Some "fmodsilo_interface_stdio") 4242
      (Some [("mod", "file:///mod")]) "abc" initial_session in
  let after := scenario_interpret Client.initialize_response sent in
  is_Some (pendingRequests after !! "abc") /\
  io after
  = io sent ++
    [Invoked ResponseTable "initialize"
       [RequestMessage "abc" "initialize"
          (initializeParams 4242 (Some [("mod", "file:///mod")]));
        Client.initialize_response];
     Rejected].
Proof.
  intros sent after.
  destruct (X14_initialize_handshake Client.stringify Client.notificationListeners
              Scenario.requestListeners "fmodsilo_interface_stdio" "abc" 4242
              (Some [("mod", "file:///mod")]) Client.initialize_response
              initial_session eq_refl eq_refl) as (_ & _ & Hraises & _).
  destruct (Hraises eq_refl eq_refl) as [Hkept Hio].
  split; [|exact Hio]. subst after sent. rewrite Hkept. eauto.
Defined.

(** A [workspace/configuration] request and the listener that notifies and
    answers. *)
Lemma X15_request_answered_witness :
  io (scenario_interpret Client.configuration_request initial_session)
  = [Invoked RequestTable "workspace/configuration" [VUndefined];
     Write (frame (text (NotificationMessage "$/progress" VNull)));
     Write (frame (text (ResponseMessage (VNumber 7) (VArray []) VUndefined)))].
Proof.
  apply (X15_request_answered Client.stringify Client.notificationListeners
           Scenario.requestListeners Client.responseListeners
           Client.configuration_request "workspace/configuration"
           Scenario.configuration_listener
           [SendNotification "$/progress" VNull]
           {| result := VArray []; error := VUndefined |} initial_session);
    reflexivity.
Defined.

(** A body that is not JSON and an [exit] notification, in one chunk and
    in two. *)
Lemma X16_chunking_after_error_witness :
  scenario_feed [frame Scenario.garbage +:+ frame (text Client.exit_notification)]
    initial_decoder initial_session
  = Thrown {| msgStage := HEADER; received := Scenario.garbage;
              awaitLength := Finite (inject_Z 5); readLength := 0 |}
      initial_session /\
  exists d',
    scenario_feed [frame Scenario.garbage; frame (text Client.exit_notification)]
      initial_decoder initial_session
    = Thrown d' initial_session /\
    msgStage d' <> HEADER /\ awaitLength d' = NaN.
Proof.
  apply (X16_chunking_after_error Scenario.JSON_parse Client.stringify
           Client.notificationListeners Scenario.requestListeners
           Client.responseListeners Scenario.garbage
           (text Client.exit_notification) initial_decoder initial_session).
  - repeat split.
  - simpl. lia.
  - reflexivity.
Defined.

End MoreExamples.
